(** * A shallow embedding of the MyLLMTradingAgents session core.

    Sources embedded:
    - [sim/fills.py]         FillEngine
    - [sim/broker.py]        SimBroker (ledger, validation, execution, snapshots)
    - [schemas.py]           Order, Fill, Position, Snapshot (with their field
                             validators that can raise)
    - [arena/runner.py]      ArenaRunner._run_competitor, _invoke_with_retry,
                             _repair_json_parse
    - [arena/gate.py]        SessionGate.should_run
    - [storage/sqlite_store.py]  has_run_today and the call counters

    Floating-point arithmetic is modelled by exact rationals [Q]; Python
    exceptions by the [Raise] branch of a small error monad; the Python object
    heap by a [gmap] from locations to [Position] records, so that a
    [Snapshot] holding the same [Position] objects as the ledger (aliasing)
    observes later in-place mutations exactly as the Python code does. *)

From Stdlib Require Import ZArith QArith Qround Lqa String Ascii List Bool.
From stdpp Require Import base gmap pretty.

Open Scope Z_scope.
Open Scope Q_scope.

(* ------------------------------------------------------------------ *)
(** ** Exceptions: a small error monad *)

Inductive Result (A : Type) : Type :=
| Ok (a : A)
| Raise (exc : string).
Arguments Ok {A} a.
Arguments Raise {A} exc.

Definition rbind {A B} (r : Result A) (k : A -> Result B) : Result B :=
  match r with Ok a => k a | Raise e => Raise e end.

Declare Scope result_scope.
Notation "x <-- r ;; k" := (rbind r (fun x => k))
  (at level 100, r at next level, right associativity) : result_scope.
Open Scope result_scope.

(* ------------------------------------------------------------------ *)
(** ** Strings: [str.upper], substring test, float formatting *)

Definition upper_char (c : ascii) : ascii :=
  let n := nat_of_ascii c in
  if (97 <=? n)%nat && (n <=? 122)%nat then ascii_of_nat (n - 32) else c.

(** [str.upper] on ASCII text. *)
Fixpoint upper (s : string) : string :=
  match s with
  | EmptyString => EmptyString
  | String c r => String (upper_char c) (upper r)
  end.

Fixpoint prefixb (p s : string) : bool :=
  match p, s with
  | EmptyString, _ => true
  | String a p', String b s' => Ascii.eqb a b && prefixb p' s'
  | String _ _, EmptyString => false
  end.

(** Python's [needle in hay] on strings. *)
Fixpoint contains (needle hay : string) : bool :=
  prefixb needle hay ||
  match hay with
  | EmptyString => false
  | String _ r => contains needle r
  end.

Definition Qltb (x y : Q) : bool := negb (Qle_bool y x).

Fixpoint pad_left (n : nat) (s : string) : string :=
  match n with
  | O => s
  | S n' => if (String.length s <? n)%nat then pad_left n' ("0" ++ s)%string else s
  end.

(** [f"{x:.<d>f}"]: fixed-point rendering with [d] decimals (the model
    truncates where Python rounds; only the text around it matters here). *)
Definition fmt_fixed (d : nat) (q : Q) : string :=
  let scale := (10 ^ Z.of_nat d)%Z in
  let c := Qfloor (q * inject_Z scale) in
  let sign := if (c <? 0)%Z then "-"%string else ""%string in
  let a := Z.abs c in
  match d with
  | O => (sign ++ pretty (a / scale)%Z)%string
  | _ => (sign ++ pretty (a / scale)%Z ++ "." ++ pad_left d (pretty (a mod scale)%Z))%string
  end.

(** [f"{x:.<d>%}"]. *)
Definition fmt_pct (d : nat) (q : Q) : string :=
  (fmt_fixed d (q * 100) ++ "%")%string.

(* ------------------------------------------------------------------ *)
(** ** Python dicts with string keys (insertion-ordered) *)

Fixpoint dict_get {V} (d : list (string * V)) (k : string) : option V :=
  match d with
  | [] => None
  | (k', v) :: r => if String.eqb k' k then Some v else dict_get r k
  end.

Definition dict_mem {V} (d : list (string * V)) (k : string) : bool :=
  match dict_get d k with Some _ => true | None => false end.

(** [del d[k]] (only ever applied to a present key). *)
Definition dict_del {V} (d : list (string * V)) (k : string) : list (string * V) :=
  List.filter (fun kv => negb (String.eqb (fst kv) k)) d.

(* ------------------------------------------------------------------ *)
(** ** schemas.py *)

Inductive OrderSide := BUY | SELL.

(** [Order]; the ticker validator has already applied [upper().strip()]. *)
Record Order := mkOrder {
  o_ticker : string;
  o_side : OrderSide;
  o_qty : Z
}.

Record Fill := mkFill {
  f_ticker : string;
  f_side : OrderSide;
  f_qty : Z;
  f_fill_price : Q;
  f_fees : Q;
  f_slippage : Q;
  f_notional : Q
}.

Record Position := mkPosition {
  p_ticker : string;
  p_qty : Z;
  p_avg_cost : Q;
  p_current_price : Q
}.

Definition market_value (p : Position) : Q := inject_Z (p_qty p) * p_current_price p.

(** Python object identities of [Position] instances. *)
Abbreviation loc := positive.

(** [Snapshot]: [positions=list(self.positions.values())] keeps the very
    [Position] objects of the ledger (pydantic does not copy model
    instances on validation), so a snapshot stores their locations. *)
Record Snapshot := mkSnapshot {
  s_cash : Q;
  s_positions : list loc;
  s_realized_pnl : Q
}.

Definition position_market_value (h : gmap loc Position) (l : loc) : Q :=
  match h !! l with Some p => market_value p | None => 0%Q end.

(** The properties [positions_value] and [equity] are evaluated when read,
    through the current state of the heap. *)
Definition positions_value (h : gmap loc Position) (s : Snapshot) : Q :=
  fold_right (fun l acc => position_market_value h l + acc)%Q 0%Q (s_positions s).

Definition equity (h : gmap loc Position) (s : Snapshot) : Q :=
  (s_cash s + positions_value h s)%Q.

(* ------------------------------------------------------------------ *)
(** ** sim/fills.py *)

Record FillEngine := mkFillEngine {
  slippage_bps : Q;
  fee_bps : Q
}.

Definition compute_slippage (fe : FillEngine) (base_price : Q) (side : OrderSide) : Q :=
  let slippage_pct := slippage_bps fe / 10000 in
  let slippage_amount := base_price * slippage_pct in
  match side with
  | BUY => slippage_amount
  | SELL => - slippage_amount
  end.

Definition compute_fill_price (fe : FillEngine) (base_price : Q) (side : OrderSide) : Q :=
  base_price + compute_slippage fe base_price side.

Definition compute_fees (fe : FillEngine) (notional : Q) : Q :=
  notional * (fee_bps fe / 10000).

(** [Fill.from_order]: pydantic enforces [fill_price >= 0] and [fees >= 0]. *)
Definition Fill_from_order (o : Order) (fill_price fees slippage : Q) : Result Fill :=
  let notional := (inject_Z (o_qty o) * fill_price)%Q in
  if Qltb fill_price 0 then Raise "ValidationError: fill_price"
  else if Qltb fees 0 then Raise "ValidationError: fees"
  else Ok (mkFill (o_ticker o) (o_side o) (o_qty o) fill_price fees slippage notional).

Definition fill_order (fe : FillEngine) (o : Order) (base_price : Q) : Result Fill :=
  let fill_price := compute_fill_price fe base_price (o_side o) in
  let notional := (inject_Z (o_qty o) * fill_price)%Q in
  let fees := compute_fees fe notional in
  let slippage := (compute_slippage fe base_price (o_side o) * inject_Z (o_qty o))%Q in
  Fill_from_order o fill_price fees slippage.

(* ------------------------------------------------------------------ *)
(** ** sim/broker.py *)

Record SimBroker := mkSimBroker {
  cash : Q;
  initial_cash : Q;
  positions : list (string * loc);
  realized_pnl : Q;
  max_position_pct : Q;
  fill_engine : FillEngine;
  fill_history : list Fill
}.

(** The ledger together with the heap of [Position] objects it refers to. *)
Record World := mkWorld {
  heap : gmap loc Position;
  broker : SimBroker
}.

Definition with_ledger (b : SimBroker) (c : Q) (ps : list (string * loc)) (r : Q) : SimBroker :=
  mkSimBroker c (initial_cash b) ps r (max_position_pct b) (fill_engine b) (fill_history b).

Definition with_history (b : SimBroker) (fh : list Fill) : SimBroker :=
  mkSimBroker (cash b) (initial_cash b) (positions b) (realized_pnl b)
    (max_position_pct b) (fill_engine b) fh.

Definition get_position_loc (w : World) (ticker : string) : option loc :=
  dict_get (positions (broker w)) (upper ticker).

Definition get_position (w : World) (ticker : string) : option Position :=
  match get_position_loc w ticker with
  | Some l => heap w !! l
  | None => None
  end.

Definition get_position_qty (w : World) (ticker : string) : Z :=
  match get_position w ticker with Some p => p_qty p | None => 0%Z end.

Definition update_price (w : World) (tp : string * Q) : World :=
  let '(ticker, price) := tp in
  match dict_get (positions (broker w)) (upper ticker) with
  | Some l =>
      match heap w !! l with
      | Some pos =>
          mkWorld (<[l := mkPosition (p_ticker pos) (p_qty pos) (p_avg_cost pos) price]> (heap w))
                  (broker w)
      | None => w
      end
  | None => w
  end.

Definition update_prices (w : World) (prices : list (string * Q)) : World :=
  fold_left update_price prices w.

(** [get_snapshot]: the [Snapshot] constructor rejects [cash < 0]. *)
Definition get_snapshot (w : World) : Result Snapshot :=
  let b := broker w in
  if Qltb (cash b) 0 then Raise "ValidationError: cash"
  else Ok (mkSnapshot (cash b) (map snd (positions b)) (realized_pnl b)).

Definition msg_insufficient_cash (need have : Q) : string :=
  ("Insufficient cash: need $" ++ fmt_fixed 2 need ++ ", have $" ++ fmt_fixed 2 have)%string.

Definition msg_exceed (mx pct : Q) : string :=
  ("Position would exceed max " ++ fmt_pct 0 mx ++ ": " ++ fmt_pct 1 pct)%string.

Definition msg_insufficient_shares (need have : Z) : string :=
  ("Insufficient shares: need " ++ pretty need ++ ", have " ++ pretty have)%string.

Definition validate_order (w : World) (o : Order) (reference_price : Q) : Result (bool * string) :=
  let b := broker w in
  let ticker := upper (o_ticker o) in
  if (o_qty o <=? 0)%Z then Ok (false, "Order quantity must be positive"%string)
  else if Qle_bool reference_price 0 then
    Ok (false, ("Invalid reference price: " ++ fmt_fixed 6 reference_price)%string)
  else match o_side o with
  | BUY =>
      let estimated_cost := (inject_Z (o_qty o) * reference_price * (1005 # 1000))%Q in
      if Qltb (cash b) estimated_cost then
        Ok (false, msg_insufficient_cash estimated_cost (cash b))
      else
        snap <-- get_snapshot w ;;
        let current_equity := equity (heap w) snap in
        if Qltb 0 current_equity then
          let new_position_value :=
            (inject_Z (o_qty o) * reference_price
             + match get_position w ticker with Some p => market_value p | None => 0 end)%Q in
          let denom := (current_equity + estimated_cost)%Q in
          if Qeq_bool denom 0 then Raise "ZeroDivisionError"
          else
            let position_pct := (new_position_value / denom)%Q in
            if Qltb (max_position_pct b) position_pct then
              Ok (false, msg_exceed (max_position_pct b) position_pct)
            else Ok (true, ""%string)
        else Ok (true, ""%string)
  | SELL =>
      match get_position w ticker with
      | Some p =>
          if (p_qty p <? o_qty o)%Z then Ok (false, msg_insufficient_shares (o_qty o) (p_qty p))
          else Ok (true, ""%string)
      | None => Ok (false, msg_insufficient_shares (o_qty o) 0%Z)
      end
  end.

(** [_process_buy]; the [None] heap branches are dangling references, which
    the Python code cannot have. *)
Definition process_buy (w : World) (ticker : string) (fill : Fill) : Result World :=
  let b := broker w in
  let total_cost := (f_notional fill + f_fees fill)%Q in
  match dict_get (positions b) ticker with
  | Some l =>
      match heap w !! l with
      | None => Raise "KeyError"
      | Some pos =>
          let new_qty := (p_qty pos + f_qty fill)%Z in
          if (new_qty =? 0)%Z then Raise "ZeroDivisionError"
          else
            let new_cost := ((p_avg_cost pos * inject_Z (p_qty pos)
                              + f_fill_price fill * inject_Z (f_qty fill)) / inject_Z new_qty)%Q in
            Ok (mkWorld
                  (<[l := mkPosition (p_ticker pos) new_qty new_cost (f_fill_price fill)]> (heap w))
                  (with_ledger b (cash b - total_cost)%Q (positions b) (realized_pnl b)))
      end
  | None =>
      let l := fresh (dom (heap w)) in
      Ok (mkWorld
            (<[l := mkPosition ticker (f_qty fill) (f_fill_price fill) (f_fill_price fill)]> (heap w))
            (with_ledger b (cash b - total_cost)%Q (positions b ++ [(ticker, l)]) (realized_pnl b)))
  end.

(** [_process_sell]: the [Position] object is mutated in place, then removed
    from the dict when its quantity reaches zero. *)
Definition process_sell (w : World) (ticker : string) (fill : Fill) : Result World :=
  let b := broker w in
  match dict_get (positions b) ticker with
  | None => Raise "KeyError"
  | Some l =>
      match heap w !! l with
      | None => Raise "KeyError"
      | Some pos =>
          let proceeds := (f_notional fill - f_fees fill)%Q in
          let cost_basis := (p_avg_cost pos * inject_Z (f_qty fill))%Q in
          let realized := (proceeds - cost_basis)%Q in
          let pos' := mkPosition (p_ticker pos) (p_qty pos - f_qty fill)%Z (p_avg_cost pos)
                        (f_fill_price fill) in
          let ps' := if (p_qty pos' <=? 0)%Z then dict_del (positions b) ticker else positions b in
          Ok (mkWorld (<[l := pos']> (heap w))
                      (with_ledger b (cash b + proceeds)%Q ps' (realized_pnl b + realized)%Q))
      end
  end.

Definition execute_order (w : World) (o : Order) (fill_price : Q) : Result (World * option Fill) :=
  let ticker := upper (o_ticker o) in
  v <-- validate_order w o fill_price ;;
  if negb (fst v) then Ok (w, None)
  else
    fill <-- fill_order (fill_engine (broker w)) o fill_price ;;
    w' <-- match o_side o with
           | BUY => process_buy w ticker fill
           | SELL => process_sell w ticker fill
           end ;;
    Ok (mkWorld (heap w') (with_history (broker w') (fill_history (broker w') ++ [fill])), Some fill).

Fixpoint execute_orders (w : World) (orders : list Order) (prices : list (string * Q))
  : Result (World * list Fill) :=
  match orders with
  | [] => Ok (w, [])
  | o :: rest =>
      match dict_get prices (upper (o_ticker o)) with
      | None => execute_orders w rest prices
      | Some price =>
          r <-- execute_order w o price ;;
          let '(w1, fo) := r in
          r2 <-- execute_orders w1 rest prices ;;
          let '(w2, fills) := r2 in
          Ok (w2, match fo with Some f => f :: fills | None => fills end)
      end
  end.

(** A fresh [SimBroker(initial_cash, slippage_bps, fee_bps, max_position_pct)]. *)
Definition new_broker (c slip fee mx : Q) : World :=
  mkWorld ∅ (mkSimBroker c c [] 0 mx (mkFillEngine slip fee) []).

(* ------------------------------------------------------------------ *)
(** ** Ledger invariants *)

(** The invariant of [Ledger] in the spec: [cash >= 0], every stored
    position has [qty > 0]; the dict values are distinct objects. *)
Definition ledger_ok (w : World) : Prop :=
  0 <= cash (broker w) /\
  List.NoDup (map snd (positions (broker w))) /\
  (forall t l, In (t, l) (positions (broker w)) ->
     exists p, heap w !! l = Some p /\ (0 < p_qty p)%Z).

(** Slippage and fee rates covered by the 0.5% buffer of [validate_order]. *)
Definition costs_within_buffer (fe : FillEngine) : Prop :=
  0 <= slippage_bps fe /\ 0 <= fee_bps fe /\
  (1 + slippage_bps fe / 10000) * (1 + fee_bps fe / 10000) <= 1005 # 1000.


(** [Snapshot.equity] of [get_snapshot()], read off the ledger. *)
Definition ledger_equity (w : World) : Q :=
  cash (broker w) +
  fold_right (fun tl acc => position_market_value (heap w) (snd tl) + acc) 0 (positions (broker w)).

(** The terms of the BUY checks of [validate_order]. *)
Definition buy_estimated_cost (o : Order) (reference_price : Q) : Q :=
  inject_Z (o_qty o) * reference_price * (1005 # 1000).

Definition projected_position_value (w : World) (o : Order) (reference_price : Q) : Q :=
  inject_Z (o_qty o) * reference_price +
  match get_position w (o_ticker o) with Some p => market_value p | None => 0 end.

Definition buy_position_pct (w : World) (o : Order) (reference_price : Q) : Q :=
  projected_position_value w o reference_price
  / (ledger_equity w + buy_estimated_cost o reference_price).

(** The field constraints of [Position] ([qty >= 0], [current_price >= 0])
    for the positions held by the ledger. *)
Definition positions_wf (w : World) : Prop :=
  forall t l p, In (t, l) (positions (broker w)) -> heap w !! l = Some p ->
    (0 <= p_qty p)%Z /\ 0 <= p_current_price p.

(* ------------------------------------------------------------------ *)
(** ** The rest of sim/fills.py, sim/broker.py and schemas.py *)

(** The dict returned by [FillEngine.simulate_fill]. *)
Record SimulatedFill := mkSimulatedFill {
  sf_ticker : string;
  sf_side : OrderSide;
  sf_qty : Z;
  sf_base_price : Q;
  sf_fill_price : Q;
  sf_slippage : Q;
  sf_notional : Q;
  sf_fees : Q;
  sf_total_cost : Q;
  sf_total_proceeds : Q
}.

Definition simulate_fill (fe : FillEngine) (ticker : string) (side : OrderSide) (qty : Z)
    (base_price : Q) : SimulatedFill :=
  let fill_price := compute_fill_price fe base_price side in
  let notional := (inject_Z qty * fill_price)%Q in
  let fees := compute_fees fe notional in
  let slippage := (compute_slippage fe base_price side * inject_Z qty)%Q in
  match side with
  | BUY => mkSimulatedFill ticker side qty base_price fill_price slippage notional fees
             (notional + fees)%Q 0
  | SELL => mkSimulatedFill ticker side qty base_price fill_price slippage notional fees
              0 (notional - fees)%Q
  end.

(** [SimBroker.reset]: the old [Position] objects stay in the heap, unreferenced. *)
Definition reset (w : World) : World :=
  let b := broker w in
  mkWorld (heap w) (mkSimBroker (initial_cash b) (initial_cash b) [] 0 (max_position_pct b)
                      (fill_engine b) []).

(** The dict of [get_state_dict] / [load_state_dict]; a missing key is [None]. *)
Record StateDict := mkStateDict {
  sd_cash : option Q;
  sd_positions : option (list (string * Position));
  sd_realized_pnl : option Q
}.

(** [{ticker: pos.model_dump() for ticker, pos in self.positions.items()}]. *)
Fixpoint dump_positions (h : gmap loc Position) (ps : list (string * loc))
  : Result (list (string * Position)) :=
  match ps with
  | [] => Ok []
  | (t, l) :: rest =>
      match h !! l with
      | None => Raise "KeyError"
      | Some p => r <-- dump_positions h rest ;; Ok ((t, p) :: r)
      end
  end.

Definition get_state_dict (w : World) : Result StateDict :=
  let b := broker w in
  ps <-- dump_positions (heap w) (positions b) ;;
  Ok (mkStateDict (Some (cash b)) (Some ps) (Some (realized_pnl b))).

(** [d[k] = v] on an insertion-ordered dict. *)
Definition dict_set {V} (d : list (string * V)) (k : string) (v : V) : list (string * V) :=
  if dict_mem d k then map (fun kv => if String.eqb (fst kv) k then (k, v) else kv) d
  else d ++ [(k, v)].

(** The field constraints checked by the [Position] constructor. *)
Definition position_valid (p : Position) : bool :=
  (0 <=? p_qty p)%Z && Qle_bool 0 (p_avg_cost p) && Qle_bool 0 (p_current_price p).

(** The loop of [load_state_dict]: each position dict builds a new [Position] object. *)
Fixpoint load_positions (h : gmap loc Position) (ps : list (string * loc))
    (items : list (string * Position)) : Result (gmap loc Position * list (string * loc)) :=
  match items with
  | [] => Ok (h, ps)
  | (t, pd) :: rest =>
      if negb (position_valid pd) then Raise "ValidationError: Position"
      else
        let l := fresh (dom h) in
        load_positions (<[l := pd]> h) (dict_set ps t l) rest
  end.

(** [load_state_dict]; the fill history is left as it is. When a position
    is rejected the exception escapes (the partial state is not modelled). *)
Definition load_state_dict (w : World) (sd : StateDict) : Result World :=
  let b := broker w in
  let c := match sd_cash sd with Some c => c | None => initial_cash b end in
  let r := match sd_realized_pnl sd with Some r => r | None => 0 end in
  res <-- load_positions (heap w) [] (match sd_positions sd with Some ps => ps | None => [] end) ;;
  let '(h, ps) := res in
  Ok (mkWorld h (with_ledger b c ps r)).

(** [Position.unrealized_pnl]. *)
Definition unrealized_pnl (p : Position) : Q :=
  if (p_qty p =? 0)%Z then 0 else (p_current_price p - p_avg_cost p) * inject_Z (p_qty p).

(** [Snapshot.unrealized_pnl], read through the heap. *)
Definition snapshot_unrealized_pnl (h : gmap loc Position) (s : Snapshot) : Q :=
  fold_right (fun l acc => match h !! l with Some p => unrealized_pnl p | None => 0 end + acc)
    0 (s_positions s).

(* ------------------------------------------------------------------ *)
(** ** storage/sqlite_store.py: run logs, trades, snapshots, call counters *)

(** A snapshot as persisted: serialised, so it holds the position values. *)
Record StoredSnapshot := mkStoredSnapshot {
  ss_cash : Q;
  ss_positions : list Position;
  ss_realized_pnl : Q
}.

Record LLMCall := mkLLMCall {
  call_type : string;
  call_success : bool;
  call_error : option string;
  call_raw_response : string;
  call_prompt : string
}.

Record RunLog := mkRunLog {
  rl_run_id : string;
  rl_competitor_id : string;
  rl_session_date : Z;
  rl_session_type : string;
  rl_llm_calls : list LLMCall;
  rl_errors : list string;
  rl_fills : list Fill
}.

(** The tables of the SQLite database (session dates are day numbers; their
    ISO rendering is injective, so keys compare the same). *)
Record Storage := mkStorage {
  run_logs : list RunLog;
  call_counters : list (string * Z * Z);   (* provider, date, count *)
  trades : list (string * Fill);
  snapshots : list (string * StoredSnapshot)
}.

Definition empty_storage : Storage := mkStorage [] [] [] [].

(** [has_run_today]: [SELECT COUNT] over the run logs with the given
    competitor, date and session type is positive. *)
Definition has_run_today (st : Storage) (competitor_id : string) (d : Z) (session_type : string) : bool :=
  existsb (fun rl => String.eqb (rl_competitor_id rl) competitor_id && Z.eqb (rl_session_date rl) d
                     && String.eqb (rl_session_type rl) session_type) (run_logs st).

Definition counter_key_eqb (p : string) (d : Z) (row : string * Z * Z) : bool :=
  let '(p', d', _) := row in String.eqb p' p && Z.eqb d' d.

Definition get_daily_call_count (st : Storage) (provider : string) (d : Z) : Z :=
  match find (counter_key_eqb provider d) (call_counters st) with
  | Some (_, _, n) => n
  | None => 0%Z
  end.

(** [INSERT ... ON CONFLICT(provider, date) DO UPDATE SET count = count + ?]. *)
Definition increment_call_count (st : Storage) (provider : string) (d : Z) (count : Z) : Storage :=
  let rows := call_counters st in
  let rows' :=
    if existsb (counter_key_eqb provider d) rows
    then map (fun row => if counter_key_eqb provider d row
                         then let '(p, d', n) := row in (p, d', (n + count)%Z) else row) rows
    else rows ++ [(provider, d, count)] in
  mkStorage (run_logs st) rows' (trades st) (snapshots st).

Definition save_trade (st : Storage) (competitor_id : string) (f : Fill) : Storage :=
  mkStorage (run_logs st) (call_counters st) (trades st ++ [(competitor_id, f)]) (snapshots st).

(** [save_snapshot] serialises the positions the snapshot refers to. *)
Definition save_snapshot (st : Storage) (competitor_id : string) (h : gmap loc Position) (s : Snapshot) : Storage :=
  let ps := fold_right (fun l acc => match h !! l with Some p => p :: acc | None => acc end) [] (s_positions s) in
  mkStorage (run_logs st) (call_counters st) (trades st)
    (snapshots st ++ [(competitor_id, mkStoredSnapshot (s_cash s) ps (s_realized_pnl s))]).

Definition save_run_log (st : Storage) (rl : RunLog) : Storage :=
  mkStorage (run_logs st ++ [rl]) (call_counters st) (trades st) (snapshots st).

(* ------------------------------------------------------------------ *)
(** ** settings.py *)

Record CompetitorConfig := mkCompetitorConfig {
  comp_id : string;
  comp_provider : string
}.

Record ArenaConfig := mkArenaConfig {
  competitors : list CompetitorConfig;
  daily_call_limits : list (string * Z)
}.

(** [self.config.daily_call_limits.get(provider, 100)]. *)
Definition call_limit (cfg : ArenaConfig) (provider : string) : Z :=
  match dict_get (daily_call_limits cfg) provider with Some n => n | None => 100%Z end.

(* ------------------------------------------------------------------ *)
(** ** agents/base.py: LLM responses and their parsing *)

Record LLMResponse := mkLLMResponse {
  resp_success : bool;
  resp_content : string;
  resp_error : option string
}.

(** The answers of the LLM provider: the [n]-th generation request of a
    competitor's run (attempts and repairs alike) is answered by [llm n]. *)
Definition Oracle := nat -> LLMResponse.

Record AgentResult (A : Type) := mkAgentResult {
  ar_success : bool;
  ar_output : option A;
  ar_raw_response : string;
  ar_error : option string
}.
Arguments mkAgentResult {A}.
Arguments ar_success {A}.
Arguments ar_output {A}.
Arguments ar_raw_response {A}.
Arguments ar_error {A}.

(** [str.isspace()] on the code points 0-255. *)
Definition is_py_space (c : ascii) : bool :=
  let n := nat_of_ascii c in
  ((9 <=? n)%nat && (n <=? 13)%nat) || ((28 <=? n)%nat && (n <=? 32)%nat) || (n =? 133)%nat ||
  (n =? 160)%nat.

Fixpoint drop_spaces (l : list ascii) : list ascii :=
  match l with
  | c :: r => if is_py_space c then drop_spaces r else l
  | [] => []
  end.

(** [str.strip()]. *)
Definition strip (s : string) : string :=
  string_of_list_ascii (rev (drop_spaces (rev (drop_spaces (list_ascii_of_string s))))).

Definition fence : string := "```".

Definition endswith (suffix s : string) : bool :=
  (String.length suffix <=? String.length s)%nat &&
  String.eqb (substring (String.length s - String.length suffix) (String.length suffix) s) suffix.

(** [Agent._clean_json_string]. *)
Definition clean_json_string (content : string) : string :=
  let c := strip content in
  let c :=
    if String.prefix fence c then
      match String.index 0 (String (ascii_of_nat 10) EmptyString) c with
      | Some i => substring (S i) (String.length c - S i) c
      | None =>
          if String.prefix "```json" c then substring 7 (String.length c - 7) c
          else substring 3 (String.length c - 3) c
      end
    else c in
  let c := if endswith fence c then substring 0 (String.length c - 3) c else c in
  strip c.

(** The pydantic models' [model_validate_json] (and, for the agents' answers,
    [clean_json_string] before it) and the agents' prompt templates are not
    embedded: a [Codec] gives the decoders of the two schemas, the orders of
    a trade plan, and the user prompts the two agents render in the run at
    hand (the Strategist's from the run's briefings, date and session type;
    the RiskGuard's from a proposal and the run's snapshot, prices and order
    cap). *)
Record Codec (P T : Type) := mkCodec {
  decode_proposal : string -> option P;
  decode_plan : string -> option T;
  plan_orders : T -> list Order;
  strategist_prompt : string;
  riskguard_prompt : P -> string
}.
Arguments mkCodec {P T}.
Arguments decode_proposal {P T}.
Arguments decode_plan {P T}.
Arguments plan_orders {P T}.
Arguments strategist_prompt {P T}.
Arguments riskguard_prompt {P T}.

(** [Agent._parse_response]. *)
Definition parse_response {A} (decode : string -> option A) (r : LLMResponse) : AgentResult A :=
  if negb (resp_success r) then mkAgentResult false None (resp_content r) (resp_error r)
  else match decode (clean_json_string (resp_content r)) with
       | Some x => mkAgentResult true (Some x) (resp_content r) None
       | None => mkAgentResult false None (resp_content r) (Some "JSON parse error"%string)
       end.

(* ------------------------------------------------------------------ *)
(** ** arena/runner.py *)

Inductive AgentName := Strategist | RiskGuard.

Definition agent_call_type (a : AgentName) : string :=
  match a with Strategist => "strategist" | RiskGuard => "risk_guard" end.

(** [agent.invoke(context)] issues one generation request and parses it. *)
Definition agent_invoke {A} (decode : string -> option A) (llm : Oracle) (calls : list LLMCall)
  : AgentResult A := parse_response decode (llm (length calls)).

(** The loop of [_invoke_with_retry] with [k] retries left: each attempt is
    logged (with [result.prompt], the user prompt [prompt] the agent
    rendered for its context), the first success returns, otherwise the
    last result. *)
Fixpoint retry_loop {A} (a : AgentName) (decode : string -> option A) (prompt : string) (llm : Oracle)
    (k : nat) (calls : list LLMCall) : AgentResult A * list LLMCall :=
  let r := agent_invoke decode llm calls in
  let calls' := calls ++ [mkLLMCall (agent_call_type a) (ar_success r) (ar_error r) (ar_raw_response r) prompt] in
  if ar_success r then (r, calls')
  else match k with
       | O => (r, calls')
       | S k' => retry_loop a decode prompt llm k' calls'
       end.

(** [_invoke_with_retry(..., max_retries=2)]: at most three attempts. *)
Definition max_retries : nat := 2.

Definition invoke_with_retry {A} (a : AgentName) (decode : string -> option A) (prompt : string) (llm : Oracle)
    (calls : list LLMCall) : AgentResult A * list LLMCall :=
  retry_loop a decode prompt llm max_retries calls.

Definition nl : string := String (ascii_of_nat 10) EmptyString.

(** [build_repair_prompt(malformed_json, error, schema)]'s user prompt:
    [REPAIR_USER_PROMPT.format(malformed_json=..., error=...)] (the schema
    goes into the system prompt, which the model does not log). *)
Definition repair_user_prompt (malformed_json error : string) : string :=
  ("Fix this malformed JSON:" ++ nl ++ nl ++ malformed_json ++ nl ++ nl ++
   "Parse error: " ++ error ++ nl ++ nl ++ "Output ONLY the corrected JSON object.")%string.

(** [_repair_json_parse]: one repair request, sent and logged with the
    prompt built from the malformed text and the error; a failed request or
    an answer the schema rejects yields [None]. *)
Definition repair_json_parse {A} (decode : string -> option A) (malformed error : string)
    (llm : Oracle) (calls : list LLMCall) : option A * list LLMCall :=
  let user_prompt := repair_user_prompt malformed error in
  let resp := llm (length calls) in
  let calls' := calls ++ [mkLLMCall "repair" (resp_success resp) (resp_error resp) (resp_content resp)
                            user_prompt] in
  if resp_success resp then (decode (resp_content resp), calls') else (None, calls').

Definition agent_label (a : AgentName) : string :=
  match a with Strategist => "Strategist" | RiskGuard => "RiskGuard" end.

(** One stage of [_run_competitor] (the Strategist block and the RiskGuard
    block are written alike): invoke with retries; on failure record the
    error and attempt a repair of the last raw response. *)
Definition agent_stage {A} (a : AgentName) (decode : string -> option A) (prompt : string) (llm : Oracle)
    (calls : list LLMCall) : option A * list string * list LLMCall :=
  let '(r, calls1) := invoke_with_retry a decode prompt llm calls in
  if ar_success r then (ar_output r, [], calls1)
  else
    let err := match ar_error r with Some e => e | None => "Unknown error"%string end in
    let msg := (agent_label a ++ " call failed: " ++ match ar_error r with Some e => e | None => "None" end)%string in
    let '(out, calls2) := repair_json_parse decode (ar_raw_response r) err llm calls1 in
    (out, [msg], calls2).

(** What [_run_competitor] returns normally. *)
Inductive RunOutcome (P T : Type) :=
| Skipped (reason : string)
| Errored (message : string)
| Ran (run_id : string) (strategist_proposal : option P) (trade_plan : option T)
      (fills : list Fill) (errors : list string) (equity_before equity_after : Q).
Arguments Skipped {P T}.
Arguments Errored {P T}.
Arguments Ran {P T}.

Definition msg_no_price (ticker session_type : string) : string :=
  ("No price available for " ++ ticker ++ " in " ++ session_type ++ ", skipping order")%string.

(** The validation loop over [trade_plan.orders]: the valid orders, and the
    messages of the skipped ones, in order. *)
Fixpoint collect_valid_orders (w : World) (prices : list (string * Q)) (session_type : string)
    (orders : list Order) : Result (list Order * list string) :=
  match orders with
  | [] => Ok ([], [])
  | o :: rest =>
      let ticker := upper (o_ticker o) in
      match dict_get prices ticker with
      | None =>
          r <-- collect_valid_orders w prices session_type rest ;;
          Ok (fst r, msg_no_price ticker session_type :: snd r)
      | Some price =>
          v <-- validate_order w o price ;;
          r <-- collect_valid_orders w prices session_type rest ;;
          if fst v then Ok (o :: fst r, snd r)
          else Ok (fst r, ("Order rejected: " ++ ticker ++ " - " ++ snd v)%string :: snd r)
      end
  end.

Definition msg_unbound_risk_guard_result : string :=
  "cannot access local variable 'risk_guard_result' where it is not associated with a value".

(** [_run_competitor]. The state (database, broker) is returned with the
    outcome, also when an exception escapes, as Python keeps the writes done
    before it. [interleave] is what other processes sharing the database
    write to it while the Strategist stage runs; [client_error] is the
    failure of [create_llm_client], if any; [run_id] the [uuid4] prefix.
    When [execute_orders] raises, the broker reported is the one before
    execution. *)
Definition run_competitor {P T} (cfg : ArenaConfig) (codec : Codec P T) (comp : CompetitorConfig)
    (session_type : string) (session_date : Z) (prices : list (string * Q)) (dry_run : bool)
    (run_id : string) (client_error : option string) (llm : Oracle)
    (interleave : Storage -> Storage) (st : Storage) (w : World)
    : Result (RunOutcome P T) * Storage * World :=
  if negb dry_run && has_run_today st (comp_id comp) session_date session_type
  then (Ok (Skipped "already_ran"), st, w) else
  let current_count := get_daily_call_count st (comp_provider comp) session_date in
  let limit := call_limit cfg (comp_provider comp) in
  if (limit <? current_count + 2)%Z then (Ok (Skipped "call_limit"), st, w) else
  let w1 := update_prices w prices in
  match get_snapshot w1 with
  | Raise e => (Raise e, st, w1)
  | Ok snapshot_before =>
  match client_error with
  | Some e => (Ok (Errored e), st, w1)
  | None =>
  (* Call #1: Strategist, with repair *)
  let '(strategist_proposal, errors1, calls1) :=
    agent_stage Strategist (decode_proposal codec) (strategist_prompt codec) llm [] in
  let st1 := interleave st in
  (* Call #2: RiskGuard, after the budget re-check *)
  let stage2 : Result (option T * list string * list LLMCall) :=
    match strategist_proposal with
    | Some proposal =>
        let current_count' := get_daily_call_count st1 (comp_provider comp) session_date in
        if (limit <? current_count' + 1)%Z
        then Raise msg_unbound_risk_guard_result
        else
          let '(plan, errs, calls2) := agent_stage RiskGuard (decode_plan codec) (riskguard_prompt codec proposal) llm calls1 in
          Ok (plan, errors1 ++ errs, calls2)
    | None => Ok (None, errors1 ++ ["Skipping RiskGuard: No strategist proposal available"%string], calls1)
    end in
  match stage2 with
  | Raise e => (Raise e, st1, w1)
  | Ok (trade_plan, errors2, llm_calls) =>
  (* Execute orders *)
  let orders := match trade_plan with Some tp => plan_orders codec tp | None => [] end in
  match collect_valid_orders w1 prices session_type orders with
  | Raise e => (Raise e, st1, w1)
  | Ok (valid_orders, errs3) =>
  let errors := errors2 ++ errs3 in
  let exec : Result (World * list Fill * Storage) :=
    if match valid_orders with [] => false | _ => true end && negb dry_run then
      r <-- execute_orders w1 valid_orders prices ;;
      let '(w2, fills) := r in
      Ok (w2, fills, fold_left (fun s f => save_trade s (comp_id comp) f) fills st1)
    else Ok (w1, [], st1) in
  match exec with
  | Raise e => (Raise e, st1, w1)
  | Ok (w2, fills, st2) =>
  let w3 := update_prices w2 prices in
  match get_snapshot w3 with
  | Raise e => (Raise e, st2, w3)
  | Ok snapshot_after =>
  let st3 :=
    if negb dry_run then
      let s := increment_call_count st2 (comp_provider comp) session_date (Z.of_nat (length llm_calls)) in
      let s := save_snapshot s (comp_id comp) (heap w3) snapshot_after in
      save_run_log s (mkRunLog run_id (comp_id comp) session_date session_type llm_calls errors fills)
    else st2 in
  (Ok (Ran run_id strategist_proposal trade_plan fills errors
           (equity (heap w3) snapshot_before) (equity (heap w3) snapshot_after)), st3, w3)
  end end end end end end.

(** The [try]/[except] of [run_session] around [_run_competitor]: an escaping
    exception becomes the per-competitor result [{"error": str(e)}]. *)
Definition run_session_entry {P T} (r : Result (RunOutcome P T) * Storage * World)
  : RunOutcome P T * Storage * World :=
  let '(res, st, w) := r in
  match res with
  | Ok o => (o, st, w)
  | Raise e => (Errored e, st, w)
  end.

(** The Strategist stage of [_run_competitor] as it runs in a fresh run. *)
Definition strategist_stage {P T} (codec : Codec P T) (llm : Oracle)
  : option P * list string * list LLMCall :=
  agent_stage Strategist (decode_proposal codec) (strategist_prompt codec) llm [].

(* ------------------------------------------------------------------ *)
(** ** arena/gate.py *)

(** Instants are seconds in the market's time zone; a day is [instant / 86400]. *)
Definition seconds_per_day : Z := 86400.

Definition day_of (t : Z) : Z := (t / seconds_per_day)%Z.

(** [str()] of the datetimes the gate puts in its reasons. *)

(** [%02d] (and [%04d] for years) of a non-negative number. *)
Definition pad2 (z : Z) : string := pad_left 2 (pretty z).
Definition pad4 (z : Z) : string := pad_left 4 (pretty z).

(** The proleptic Gregorian (year, month, day) of a day number counted
    from 1970-01-01 ([date.fromordinal], written out on days since the
    epoch). *)
Definition civil_from_days (days : Z) : Z * Z * Z :=
  let z := (days + 719468)%Z in
  let era := (z / 146097)%Z in
  let doe := (z - era * 146097)%Z in
  let yoe := ((doe - doe / 1460 + doe / 36524 - doe / 146096) / 365)%Z in
  let doy := (doe - (365 * yoe + yoe / 4 - yoe / 100))%Z in
  let mp := ((5 * doy + 2) / 153)%Z in
  let d := (doy - (153 * mp + 2) / 5 + 1)%Z in
  let m := if (mp <? 10)%Z then (mp + 3)%Z else (mp - 9)%Z in
  let y := (yoe + era * 400 + (if (m <=? 2)%Z then 1 else 0))%Z in
  (y, m, d).

(** [date.isoformat()]. *)
Definition iso_date (days : Z) : string :=
  let '(y, m, d) := civil_from_days days in
  (pad4 y ++ "-" ++ pad2 m ++ "-" ++ pad2 d)%string.

(** [datetime._format_offset] of a [utcoffset()] in seconds ([None] for a
    naive datetime). *)
Definition format_offset (off : option Z) : string :=
  match off with
  | None => EmptyString
  | Some o =>
      let sign := if (o <? 0)%Z then "-"%string else "+"%string in
      let a := Z.abs o in
      let hh := (a / 3600)%Z in
      let mm := (a mod 3600 / 60)%Z in
      let ss := (a mod 60)%Z in
      (sign ++ pad2 hh ++ ":" ++ pad2 mm ++ (if (ss =? 0)%Z then EmptyString else ":" ++ pad2 ss))%string
  end.

(** [str(dt)], i.e. [dt.isoformat(sep=" ")], for a datetime on whole
    seconds whose wall-clock time is the instant [t] (see below). *)
Definition py_datetime_str (t : Z) (off : option Z) : string :=
  let secs := (t mod 86400)%Z in
  (iso_date (t / 86400)%Z ++ " " ++ pad2 (secs / 3600)%Z ++ ":" ++ pad2 (secs mod 3600 / 60)%Z ++ ":" ++
   pad2 (secs mod 60)%Z ++ format_offset off)%string.

(** What [SessionGate] uses of a [MarketAdapter]: the session times of a
    day as instants (the wall-clock seconds of the datetimes it returns),
    and the [utcoffset()] of those datetimes ([None] when naive), which
    [str()] shows. *)
Record MarketAdapter := mkMarketAdapter {
  is_trading_day : Z -> bool;
  get_session_times : Z -> option (Z * Z);   (* open, close instants *)
  session_utcoffset : Z -> option Z
}.

(** [MarketConfig]: its [type] and its [session_times] strings. *)
Record MarketConfig := mkMarketConfig {
  market_type : string;
  market_session_times : list string
}.

Definition lower_char (c : ascii) : ascii :=
  let n := nat_of_ascii c in
  if (65 <=? n)%nat && (n <=? 90)%nat then ascii_of_nat (n + 32) else c.

Fixpoint lower (s : string) : string :=
  match s with
  | EmptyString => EmptyString
  | String c r => String (lower_char c) (lower r)
  end.

(** [create_market_adapter] raises on an unknown type. *)
Definition known_market_type (t : string) : bool :=
  existsb (String.eqb (lower t)) ["us_equity"; "sg_equity"; "crypto"]%string.

(** [s.split(":")]. *)
Fixpoint split_colon (s : string) : list string :=
  match s with
  | EmptyString => [EmptyString]
  | String c r =>
      if Ascii.eqb c ":" then EmptyString :: split_colon r
      else match split_colon r with
           | p :: ps => String c p :: ps
           | [] => [String c EmptyString]
           end
  end.

Definition digit_value (c : ascii) : option Z :=
  let n := nat_of_ascii c in
  if (48 <=? n)%nat && (n <=? 57)%nat then Some (Z.of_nat n - 48)%Z else None.

(** The digits of an integer literal, single underscores allowed between
    digits. *)
Fixpoint digits_value (l : list ascii) (acc : Z) (after_digit : bool) : option Z :=
  match l with
  | [] => if after_digit then Some acc else None
  | c :: r =>
      match digit_value c with
      | Some v => digits_value r (acc * 10 + v)%Z true
      | None => if Ascii.eqb c "_" && after_digit then digits_value r acc false else None
      end
  end.

(** [int(s)] in base 10: surrounding whitespace, an optional sign, digits
    (the error message shows the literal without its [repr] quotes). *)
Definition py_int (s : string) : Result Z :=
  let l := rev (drop_spaces (rev (drop_spaces (list_ascii_of_string s)))) in
  let r :=
    match l with
    | "-"%char :: d => option_map Z.opp (digits_value d 0 false)
    | "+"%char :: d => digits_value d 0 false
    | d => digits_value d 0 false
    end in
  match r with
  | Some z => Ok z
  | None => Raise ("ValueError: invalid literal for int() with base 10: " ++ s)%string
  end.

(** Converting a Python [int] to a C [int]. *)
Definition c_int_overflow (z : Z) : option string :=
  if (2147483647 <? z)%Z then Some "OverflowError: signed integer is greater than maximum"%string
  else if (z <? -2147483648)%Z then Some "OverflowError: signed integer is less than minimum"%string
  else None.

(** [time(hour, minute)]: both arguments go through a C [int] first. *)
Definition py_time (h m : Z) : Result (Z * Z) :=
  match c_int_overflow h, c_int_overflow m with
  | Some e, _ => Raise e
  | None, Some e => Raise e
  | None, None =>
  if negb ((0 <=? h) && (h <=? 23))%Z then Raise "ValueError: hour must be in 0..23"
  else if negb ((0 <=? m) && (m <=? 59))%Z then Raise "ValueError: minute must be in 0..59"
  else Ok (h, m)
  end.

(** [parts = time_str.split(":")]; [time(int(parts[0]), int(parts[1]))],
    evaluated left to right. *)
Definition parse_session_time (time_str : string) : Result (Z * Z) :=
  let parts := split_colon time_str in
  h <-- py_int (nth 0 parts EmptyString) ;;
  match nth_error parts 1 with
  | None => Raise "IndexError: list index out of range"
  | Some p1 => m <-- py_int p1 ;; py_time h m
  end.

(** The loop over [self.config.competitors] shared by both paths. *)
Fixpoint check_already_ran (st : Storage) (comps : list CompetitorConfig) (today : Z)
    (session_type : string) : bool * string :=
  match comps with
  | [] => (true, "OK"%string)
  | c :: rest =>
      if has_run_today st (comp_id c) today session_type
      then (false, ("Already ran " ++ session_type ++ " for " ++ comp_id c ++ " today")%string)
      else check_already_ran st rest today session_type
  end.

(** [_check_crypto_session]. *)
Definition check_crypto_session (cfg : ArenaConfig) (st : Storage) (market : MarketConfig)
    (session_type : string) (now : Z) : Result (bool * string) :=
  let today := day_of now in
  let idx := if String.eqb session_type "OPEN" then 0%nat else 1%nat in
  let idx := if (length (market_session_times market) <=? idx)%nat then 0%nat else idx in
  match nth_error (market_session_times market) idx with
  | None => Raise "IndexError: list index out of range"
  | Some time_str =>
      hm <-- parse_session_time time_str ;;
      let '(hh, mm) := hm in
      let target := (today * seconds_per_day + hh * 3600 + mm * 60)%Z in
      if (600 <? Z.abs (now - target))%Z
      then Ok (false, ("Outside crypto " ++ session_type ++ " window (" ++ time_str ++ ")")%string)
      else Ok (check_already_ran st (competitors cfg) today session_type)
  end.

(** [SessionGate.should_run]; [adapter] is the adapter
    [create_market_adapter(market.type)] builds. *)
Definition should_run (cfg : ArenaConfig) (st : Storage) (adapter : MarketAdapter)
    (market : MarketConfig) (session_type : string) (now : Z) : Result (bool * string) :=
  let today := day_of now in
  let is_crypto := String.eqb (market_type market) "crypto" in
  if negb (known_market_type (market_type market)) then Raise "ValueError: Unknown market type"
  else if negb is_crypto && negb (is_trading_day adapter today)
  then Ok (false, ("Not a trading day for " ++ market_type market)%string)
  else
  let session_times := get_session_times adapter today in
  if negb is_crypto && match session_times with None => true | Some _ => false end
  then Ok (false, "Could not determine session times"%string)
  else if is_crypto then check_crypto_session cfg st market session_type now
  else match session_times with
  | None => Raise "TypeError: cannot unpack non-iterable NoneType object"
  | Some (open_time, close_time) =>
      if String.eqb session_type "OPEN" then
        if negb ((open_time - 300 <=? now)%Z && (now <=? open_time + 1800)%Z)
        then Ok (false, ("Outside OPEN window (" ++
                         py_datetime_str open_time (session_utcoffset adapter today) ++ ")")%string)
        else Ok (check_already_ran st (competitors cfg) today session_type)
      else if String.eqb session_type "CLOSE" then
        if negb ((close_time - 1800 <=? now)%Z && (now <=? close_time + 300)%Z)
        then Ok (false, ("Outside CLOSE window (" ++
                         py_datetime_str close_time (session_utcoffset adapter today) ++ ")")%string)
        else Ok (check_already_ran st (competitors cfg) today session_type)
      else Ok (check_already_ran st (competitors cfg) today session_type)
  end.

(* ------------------------------------------------------------------ *)
(** ** Basic facts about the helpers *)

Lemma upper_char_idem c : upper_char (upper_char c) = upper_char c.
Proof. destruct c as [[] [] [] [] [] [] [] []]; reflexivity. Qed.

Lemma upper_idem s : upper (upper s) = upper s.
Proof. induction s as [|c s IH]; simpl; [reflexivity|]. rewrite upper_char_idem, IH. reflexivity. Qed.

Lemma prefixb_app p a b : prefixb p a = true -> prefixb p (a ++ b) = true.
Proof.
  revert a. induction p as [|c p IH]; intros [|c' a] H; simpl in *; try easy.
  apply andb_prop in H as [H1 H2]. rewrite H1. simpl. auto.
Qed.

Lemma contains_app_l n a b : contains n a = true -> contains n (a ++ b)%string = true.
Proof.
  induction a as [|c a IH]; intros H.
  - destruct n; simpl in *; [destruct b; reflexivity|discriminate].
  - simpl in *. apply orb_prop in H as [H|H].
    + apply orb_true_intro. left. exact (prefixb_app _ _ b H).
    + rewrite (IH H). apply orb_true_r.
Qed.

Lemma dict_get_In {V} (d : list (string * V)) k v : dict_get d k = Some v -> In (k, v) d.
Proof.
  induction d as [|[k' v'] d IH]; simpl; [discriminate|].
  destruct (String.eqb_spec k' k) as [->|]; [intros [= ->]; left; reflexivity|].
  intros H. right. auto.
Qed.

Lemma dict_get_del {V} (d : list (string * V)) k : dict_get (dict_del d k) k = None.
Proof.
  induction d as [|[k' v'] d IH]; simpl; [reflexivity|].
  destruct (String.eqb_spec k' k) as [->|Hne]; simpl; [exact IH|].
  apply String.eqb_neq in Hne. rewrite Hne. exact IH.
Qed.

Lemma dict_get_app_new {V} (d : list (string * V)) k v :
  dict_get d k = None -> dict_get (d ++ [(k, v)]) k = Some v.
Proof.
  induction d as [|[k' v'] d IH]; simpl.
  - rewrite String.eqb_refl. reflexivity.
  - destruct (String.eqb k' k); [discriminate|exact IH].
Qed.

Lemma dict_get_app_old {V} (d : list (string * V)) k k2 v2 v :
  dict_get d k = Some v -> dict_get (d ++ [(k2, v2)]) k = Some v.
Proof.
  induction d as [|[k' v'] d IH]; simpl; [discriminate|].
  destruct (String.eqb k' k); [exact id|exact IH].
Qed.

Lemma Qltb_false x y : Qltb x y = false -> y <= x.
Proof. unfold Qltb. destruct (Qle_bool y x) eqn:E; [|discriminate]. intros _. apply Qle_bool_iff, E. Qed.

Lemma Qltb_true x y : Qltb x y = true -> x < y.
Proof.
  unfold Qltb. destruct (Qle_bool y x) eqn:E; [discriminate|]. intros _.
  apply Qnot_le_lt. intros H. apply Qle_bool_iff in H. congruence.
Qed.

Lemma Qltb_false_iff x y : Qltb x y = false <-> y <= x.
Proof.
  split; [apply Qltb_false|]. intros H. unfold Qltb. apply Qle_bool_iff in H. rewrite H. reflexivity.
Qed.

Lemma Qle_bool_false x y : Qle_bool x y = false -> y < x.
Proof. intros E. apply Qnot_le_lt. intros H. apply Qle_bool_iff in H. congruence. Qed.

Lemma validate_true_inv w o p m :
  validate_order w o p = Ok (true, m) ->
  (0 < o_qty o)%Z /\ 0 < p /\
  match o_side o with
  | BUY => inject_Z (o_qty o) * p * (1005 # 1000) <= cash (broker w)
  | SELL => exists pos, get_position w (upper (o_ticker o)) = Some pos /\ (o_qty o <= p_qty pos)%Z
  end.
Proof.
  unfold validate_order.
  destruct (o_qty o <=? 0)%Z eqn:E1; [discriminate|].
  destruct (Qle_bool p 0) eqn:E2; [discriminate|].
  apply Z.leb_gt in E1. apply Qle_bool_false in E2.
  destruct (o_side o).
  - destruct (Qltb _ _) eqn:E3; [discriminate|]. intros _.
    repeat split; auto. apply Qltb_false, E3.
  - destruct (get_position w (upper (o_ticker o))) as [pos|] eqn:E4; [|discriminate].
    destruct (p_qty pos <? o_qty o)%Z eqn:E5; [discriminate|]. intros _.
    repeat split; auto. exists pos. split; [reflexivity|]. apply Z.ltb_ge, E5.
Qed.

Lemma fill_order_ok fe o p f :
  fill_order fe o p = Ok f ->
  f_ticker f = o_ticker o /\ f_side f = o_side o /\ f_qty f = o_qty o /\
  f_fill_price f = compute_fill_price fe p (o_side o) /\
  f_notional f = inject_Z (o_qty o) * f_fill_price f /\
  f_fees f = compute_fees fe (inject_Z (o_qty o) * f_fill_price f) /\
  0 <= f_fill_price f /\ 0 <= f_fees f.
Proof.
  unfold fill_order, Fill_from_order.
  destruct (Qltb _ 0) eqn:E1; [discriminate|].
  destruct (Qltb (compute_fees _ _) 0) eqn:E2; [discriminate|].
  intros [= <-]. simpl. repeat split; try reflexivity; apply Qltb_false; assumption.
Qed.

(* ------------------------------------------------------------------ *)
(** ** The ledger invariant *)

Lemma NoDup_snoc {A} (l : list A) x : List.NoDup l -> ~ In x l -> List.NoDup (l ++ [x]).
Proof.
  induction l as [|a l IH]; simpl; intros Hnd Hx.
  - constructor; [easy|constructor].
  - inversion Hnd as [|? ? Ha Hl]; subst. constructor.
    + rewrite in_app_iff. simpl. intros [H|[H|H]]; [exact (Ha H)| |exact H].
      apply Hx. left. symmetry. exact H.
    + apply IH; auto.
Qed.

Lemma NoDup_map_snd_filter {A B} (f : A * B -> bool) (l : list (A * B)) :
  List.NoDup (map snd l) -> List.NoDup (map snd (List.filter f l)).
Proof.
  induction l as [|[a b] l IH]; simpl; intros Hnd; [constructor|].
  inversion Hnd as [|? ? Hb Hl]; subst.
  destruct (f (a, b)); simpl; [|auto].
  constructor; [|auto].
  intros Hin. apply Hb. apply in_map_iff in Hin as [[a' b'] [Heq Hin]].
  apply filter_In in Hin as [Hin _].
  apply in_map_iff. exists (a', b'). split; assumption.
Qed.

Lemma NoDup_snd_unique {A B} (l : list (A * B)) a1 a2 b :
  List.NoDup (map snd l) -> In (a1, b) l -> In (a2, b) l -> a1 = a2.
Proof.
  induction l as [|[a b'] l IH]; simpl; [easy|].
  intros Hnd H1 H2. inversion Hnd as [|? ? Hb Hl]; subst.
  destruct H1 as [H1|H1], H2 as [H2|H2].
  - injection H1; injection H2; intros; subst. reflexivity.
  - injection H1; intros; subst. exfalso. apply Hb. apply in_map_iff. exists (a2, b). auto.
  - injection H2; intros; subst. exfalso. apply Hb. apply in_map_iff. exists (a1, b). auto.
  - eauto.
Qed.

Lemma buy_cost_within fe q p :
  costs_within_buffer fe -> 0 <= q -> 0 <= p ->
  q * compute_fill_price fe p BUY + compute_fees fe (q * compute_fill_price fe p BUY)
  <= q * p * (1005 # 1000).
Proof.
  intros (Hs & Hf & Hb) Hq Hp. unfold compute_fees, compute_fill_price, compute_slippage.
  assert (E : q * (p + p * (slippage_bps fe / 10000)) +
              q * (p + p * (slippage_bps fe / 10000)) * (fee_bps fe / 10000)
              == (q * p) * ((1 + slippage_bps fe / 10000) * (1 + fee_bps fe / 10000))) by ring.
  rewrite E.
  rewrite (Qmult_comm (q * p)), (Qmult_comm (q * p) (1005 # 1000)).
  apply Qmult_le_compat_r; [exact Hb|]. apply Qmult_le_0_compat; assumption.
Qed.

Lemma fee_rate_le_one fe : costs_within_buffer fe -> fee_bps fe / 10000 <= 1.
Proof.
  intros (Hs & Hf & Hb).
  assert (H1 : 0 <= slippage_bps fe / 10000) by (apply Qle_shift_div_l; [reflexivity|]; lra).
  assert (H2 : 0 <= fee_bps fe / 10000) by (apply Qle_shift_div_l; [reflexivity|]; lra).
  nra.
Qed.

Lemma process_buy_ledger_ok w t f w1 :
  ledger_ok w -> (0 < f_qty f)%Z -> f_notional f + f_fees f <= cash (broker w) ->
  process_buy w t f = Ok w1 -> ledger_ok w1.
Proof.
  intros (Hc & Hnd & Hpos) Hq Hcost. unfold process_buy.
  destruct (dict_get (positions (broker w)) t) as [l|] eqn:Eg.
  - destruct (heap w !! l) as [pos|] eqn:Eh; [|discriminate].
    destruct (p_qty pos + f_qty f =? 0)%Z; [discriminate|].
    intros [= <-]. repeat split; simpl.
    + lra.
    + exact Hnd.
    + intros t2 l2 Hin. destruct (decide (l2 = l)) as [->|Hne].
      * rewrite lookup_insert_eq. eexists; split; [reflexivity|]. simpl.
        destruct (Hpos t l (dict_get_In _ _ _ Eg)) as (p0 & Hp0 & Hq0).
        rewrite Eh in Hp0. injection Hp0 as <-. lia.
      * rewrite lookup_insert_ne by congruence. eauto.
  - intros [= <-]. set (l := fresh (dom (heap w))).
    assert (Hfresh : forall t2 l2, In (t2, l2) (positions (broker w)) -> l2 <> l).
    { intros t2 l2 Hin ->. destruct (Hpos _ _ Hin) as (p0 & Hp0 & _).
      apply (is_fresh (dom (heap w))). apply elem_of_dom. exists p0. exact Hp0. }
    repeat split; simpl.
    + lra.
    + rewrite map_app. simpl. apply NoDup_snoc; [exact Hnd|].
      intros Hin. apply in_map_iff in Hin as [[t2 l2] [Heq Hin]]. simpl in Heq; subst.
      exact (Hfresh _ _ Hin eq_refl).
    + intros t2 l2 Hin. apply in_app_iff in Hin as [Hin|[Heq|[]]].
      * rewrite lookup_insert_ne by (intros ->; exact (Hfresh _ _ Hin eq_refl)). eauto.
      * injection Heq as <- <-. rewrite lookup_insert_eq. eexists; split; [reflexivity|]. simpl. exact Hq.
Qed.

Lemma process_sell_ledger_ok w t f w1 :
  ledger_ok w -> 0 <= f_notional f - f_fees f ->
  (forall l pos, dict_get (positions (broker w)) t = Some l -> heap w !! l = Some pos ->
     (f_qty f <= p_qty pos)%Z) ->
  process_sell w t f = Ok w1 -> ledger_ok w1.
Proof.
  intros (Hc & Hnd & Hpos) Hpr Hle. unfold process_sell.
  destruct (dict_get (positions (broker w)) t) as [l|] eqn:Eg; [|discriminate].
  destruct (heap w !! l) as [pos|] eqn:Eh; [|discriminate].
  specialize (Hle l pos eq_refl Eh).
  pose proof (dict_get_In _ _ _ Eg) as Htl.
  intros [= <-]. simpl.
  destruct (p_qty pos - f_qty f <=? 0)%Z eqn:Ez; repeat split; simpl.
  - lra.
  - apply NoDup_map_snd_filter, Hnd.
  - intros t2 l2 Hin. apply filter_In in Hin as [Hin Hk].
    destruct (decide (l2 = l)) as [->|Hne].
    + exfalso. pose proof (NoDup_snd_unique _ _ _ _ Hnd Hin Htl) as ->.
      rewrite String.eqb_refl in Hk. discriminate.
    + rewrite lookup_insert_ne by congruence. eauto.
  - lra.
  - exact Hnd.
  - intros t2 l2 Hin. destruct (decide (l2 = l)) as [->|Hne].
    + rewrite lookup_insert_eq. eexists; split; [reflexivity|]. simpl. lia.
    + rewrite lookup_insert_ne by congruence. eauto.
Qed.

Lemma ledger_ok_with_history w fh :
  ledger_ok w -> ledger_ok (mkWorld (heap w) (with_history (broker w) fh)).
Proof. intros H. exact H. Qed.

Lemma sell_proceeds_nonneg fe q fp :
  costs_within_buffer fe -> 0 <= q -> 0 <= fp ->
  0 <= q * fp - compute_fees fe (q * fp).
Proof.
  intros Hc Hq Hfp. pose proof (fee_rate_le_one fe Hc) as Hr.
  unfold compute_fees.
  assert (E : q * fp - q * fp * (fee_bps fe / 10000) == (q * fp) * (1 - fee_bps fe / 10000)) by ring.
  rewrite E. apply Qmult_le_0_compat; [apply Qmult_le_0_compat; assumption|lra].
Qed.

Lemma get_position_upper w t : get_position w (upper t) = get_position w t.
Proof. unfold get_position, get_position_loc. rewrite upper_idem. reflexivity. Qed.

Lemma positions_value_snapshot (h : gmap loc Position) (ps : list (string * loc)) c r :
  positions_value h (mkSnapshot c (map snd ps) r)
  = fold_right (fun tl acc => position_market_value h (snd tl) + acc) 0 ps.
Proof.
  unfold positions_value. simpl. induction ps as [|tl ps IH]; simpl; [reflexivity|].
  rewrite IH. reflexivity.
Qed.

Lemma held_value_nonneg w :
  positions_wf w ->
  0 <= fold_right (fun tl acc => position_market_value (heap w) (snd tl) + acc) 0 (positions (broker w)).
Proof.
  unfold positions_wf. generalize (positions (broker w)) as ps.
  induction ps as [|[t l] ps IH]; simpl; intros Hwf; [lra|].
  assert (H0 : 0 <= position_market_value (heap w) l).
  { unfold position_market_value. destruct (heap w !! l) as [p|] eqn:E; [|lra].
    destruct (Hwf t l p (or_introl eq_refl) E) as [Hq Hc].
    unfold market_value. apply Qmult_le_0_compat; [|exact Hc].
    change 0 with (inject_Z 0). rewrite <- Zle_Qle. exact Hq. }
  assert (H1 : 0 <= fold_right (fun tl acc => position_market_value (heap w) (snd tl) + acc) 0 ps).
  { apply IH. intros t2 l2 p2 Hin. apply (Hwf t2). right. exact Hin. }
  lra.
Qed.

Lemma validate_buy_exhaustive w o p :
  positions_wf w -> (1 <= o_qty o)%Z -> 0 < p -> o_side o = BUY ->
  if Qle_bool (buy_estimated_cost o p) (cash (broker w))
     && Qle_bool (buy_position_pct w o p) (max_position_pct (broker w))
  then validate_order w o p = Ok (true, ""%string)
  else exists m, validate_order w o p = Ok (false, m) /\
    (if Qle_bool (buy_estimated_cost o p) (cash (broker w))
     then contains "exceed" m else contains "cash" m) = true.
Proof.
  intros Hwf Hq Hp Hs. unfold validate_order.
  assert (Eq : (o_qty o <=? 0)%Z = false) by (apply Z.leb_gt; lia). rewrite Eq.
  assert (Ep : Qle_bool p 0 = false).
  { destruct (Qle_bool p 0) eqn:E; [|reflexivity]. apply Qle_bool_iff in E. lra. }
  rewrite Ep, Hs. fold (buy_estimated_cost o p).
  assert (Hest : 0 < buy_estimated_cost o p).
  { unfold buy_estimated_cost. apply Qmult_lt_0_compat; [|reflexivity].
    apply Qmult_lt_0_compat; [|exact Hp].
    change 0 with (inject_Z 0). rewrite <- Zlt_Qlt. lia. }
  destruct (Qltb (cash (broker w)) (buy_estimated_cost o p)) eqn:Ec.
  - apply Qltb_true in Ec.
    assert (E1 : Qle_bool (buy_estimated_cost o p) (cash (broker w)) = false).
    { destruct (Qle_bool (buy_estimated_cost o p) (cash (broker w))) eqn:E; [|reflexivity].
      apply Qle_bool_iff in E. lra. }
    rewrite E1. simpl. eexists. split; [reflexivity|].
    unfold msg_insufficient_cash. apply contains_app_l. reflexivity.
  - apply Qltb_false in Ec.
    assert (E1 : Qle_bool (buy_estimated_cost o p) (cash (broker w)) = true)
      by (apply Qle_bool_iff; exact Ec).
    rewrite E1. simpl.
    unfold get_snapshot.
    assert (E2 : Qltb (cash (broker w)) 0 = false) by (apply Qltb_false_iff; lra).
    rewrite E2. simpl. unfold equity. rewrite positions_value_snapshot. simpl.
    pose proof (held_value_nonneg w Hwf) as Hv.
    set (eqv := cash (broker w) + fold_right (fun tl acc =>
                  position_market_value (heap w) (snd tl) + acc) 0 (positions (broker w))).
    assert (Heqv : 0 < eqv) by (unfold eqv; lra).
    assert (E3 : Qltb 0 eqv = true).
    { unfold Qltb. destruct (Qle_bool eqv 0) eqn:E'; [|reflexivity]. apply Qle_bool_iff in E'. lra. }
    rewrite E3.
    assert (E4 : Qeq_bool (eqv + buy_estimated_cost o p) 0 = false).
    { destruct (Qeq_bool (eqv + buy_estimated_cost o p) 0) eqn:E'; [|reflexivity].
      apply Qeq_bool_iff in E'. lra. }
    rewrite E4. rewrite get_position_upper.
    change eqv with (ledger_equity w).
    fold (projected_position_value w o p). fold (buy_position_pct w o p).
    destruct (Qltb (max_position_pct (broker w)) (buy_position_pct w o p)) eqn:E5.
    + apply Qltb_true in E5.
      assert (E6 : Qle_bool (buy_position_pct w o p) (max_position_pct (broker w)) = false).
      { destruct (Qle_bool (buy_position_pct w o p) (max_position_pct (broker w))) eqn:E;
          [|reflexivity].
        apply Qle_bool_iff in E. lra. }
      rewrite E6. eexists. split; [reflexivity|].
      unfold msg_exceed. apply contains_app_l. reflexivity.
    + apply Qltb_false in E5.
      assert (E6 : Qle_bool (buy_position_pct w o p) (max_position_pct (broker w)) = true)
        by (apply Qle_bool_iff; exact E5).
      rewrite E6. reflexivity.
Qed.

Lemma validate_sell_exhaustive w o p :
  (1 <= o_qty o)%Z -> 0 < p -> o_side o = SELL ->
  if (o_qty o <=? get_position_qty w (o_ticker o))%Z
  then validate_order w o p = Ok (true, ""%string)
  else exists m, validate_order w o p = Ok (false, m) /\ contains "shares" m = true.
Proof.
  intros Hq Hp Hs. unfold validate_order.
  assert (Eq : (o_qty o <=? 0)%Z = false) by (apply Z.leb_gt; lia). rewrite Eq.
  assert (Ep : Qle_bool p 0 = false).
  { destruct (Qle_bool p 0) eqn:E; [|reflexivity]. apply Qle_bool_iff in E. lra. }
  rewrite Ep, Hs, get_position_upper. unfold get_position_qty.
  destruct (get_position w (o_ticker o)) as [pos|].
  - destruct (p_qty pos <? o_qty o)%Z eqn:E.
    + apply Z.ltb_lt in E. assert (E' : (o_qty o <=? p_qty pos)%Z = false) by (apply Z.leb_gt; lia).
      rewrite E'. eexists. split; [reflexivity|].
      unfold msg_insufficient_shares. apply contains_app_l. reflexivity.
    + apply Z.ltb_ge in E. assert (E' : (o_qty o <=? p_qty pos)%Z = true) by (apply Z.leb_le; lia).
      rewrite E'. reflexivity.
  - assert (E' : (o_qty o <=? 0)%Z = false) by (apply Z.leb_gt; lia).
    rewrite E'. eexists. split; [reflexivity|].
    unfold msg_insufficient_shares. apply contains_app_l. reflexivity.
Qed.

Lemma validate_rejects_nonpositive w o p :
  (o_qty o <= 0)%Z \/ p <= 0 -> exists m, validate_order w o p = Ok (false, m).
Proof.
  intros H. unfold validate_order.
  destruct (o_qty o <=? 0)%Z eqn:Eq; [eexists; reflexivity|].
  apply Z.leb_gt in Eq.
  destruct (Qle_bool p 0) eqn:Ep; [eexists; reflexivity|].
  exfalso. destruct H as [H|H]; [lia|]. apply Qle_bool_iff in H. congruence.
Qed.

Lemma execute_order_fill_inv w o r w' f :
  execute_order w o r = Ok (w', Some f) ->
  fill_order (fill_engine (broker w)) o r = Ok f /\
  exists w1,
    match o_side o with
    | BUY => process_buy w (upper (o_ticker o)) f
    | SELL => process_sell w (upper (o_ticker o)) f
    end = Ok w1 /\
    w' = mkWorld (heap w1) (with_history (broker w1) (fill_history (broker w1) ++ [f])).
Proof.
  unfold execute_order.
  destruct (validate_order w o r) as [[v m]|e]; simpl; [|discriminate].
  destruct v; simpl; [|discriminate].
  destruct (fill_order (fill_engine (broker w)) o r) as [f0|e] eqn:Ef; simpl; [|discriminate].
  destruct (match o_side o with
            | BUY => process_buy w (upper (o_ticker o)) f0
            | SELL => process_sell w (upper (o_ticker o)) f0
            end) as [w1|e] eqn:Ep; simpl; [|discriminate].
  intros [= <- <-]. split; [reflexivity|]. exists w1. split; [exact Ep|reflexivity].
Qed.

Lemma get_position_with_history w fh t :
  get_position (mkWorld (heap w) (with_history (broker w) fh)) t = get_position w t.
Proof. reflexivity. Qed.

(* ================================================================== *)
(** * Claims about the ledger (sim/broker.py) *)

(** C3: cash can go negative.  With [slippage_bps = 100] the 0.5% buffer
    that [validate_order] adds "for fees and slippage" does not cover the
    fill cost: from a fresh broker with cash 1005, a BUY 10 @ 100 passes
    validation, fills at 101 and leaves cash at -5, which the
    [Snapshot.cash >= 0] field of the next [get_snapshot] refuses. *)
Lemma execute_order_negative_cash_cex :
  ledger_ok (new_broker 1005 100 0 1) /\
  match execute_order (new_broker 1005 100 0 1) (mkOrder "AAPL" BUY 10) 100 with
  | Ok (w', Some _) => cash (broker w') < 0 /\ exists e, get_snapshot w' = Raise e
  | _ => False
  end.
Proof.
  split.
  - repeat split; simpl; [apply Qle_bool_iff; reflexivity|constructor|tauto].
  - vm_compute. split; [reflexivity|eexists; reflexivity].
Qed.

(** The ledger invariant per order: when [(1 + slippage_bps/10000) * (1 + fee_bps/10000) <= 1.005]
    with non-negative rates (e.g. the default 10/10 bps), every
    [execute_order] that returns keeps [cash >= 0] and every stored position
    at [qty > 0], starting from such a ledger. *)
Theorem execute_order_keeps_ledger_ok w o p w' fo :
  costs_within_buffer (fill_engine (broker w)) -> ledger_ok w ->
  execute_order w o p = Ok (w', fo) -> ledger_ok w'.
Proof.
  intros Hc Hok. unfold execute_order.
  destruct (validate_order w o p) as [[v m]|e] eqn:Ev; simpl; [|discriminate].
  destruct v; simpl; [|intros [= <- _]; exact Hok].
  destruct (fill_order (fill_engine (broker w)) o p) as [f|e] eqn:Ef; simpl; [|discriminate].
  apply validate_true_inv in Ev as (Hq & Hp & Hside).
  apply fill_order_ok in Ef as (Ht & Hs & Hfq & Hfp & Hn & Hfee & Hfp0 & Hfee0).
  assert (Hq0 : 0 <= inject_Z (o_qty o)).
  { change 0 with (inject_Z 0). rewrite <- Zle_Qle. lia. }
  destruct (o_side o) eqn:Eside.
  - destruct (process_buy w (upper (o_ticker o)) f) as [w1|e] eqn:Eb; simpl; [|discriminate].
    intros [= <- _]. apply ledger_ok_with_history.
    apply (process_buy_ledger_ok w (upper (o_ticker o)) f w1 Hok); [lia| |exact Eb].
    rewrite Hfee, Hn, Hfp. eapply Qle_trans; [|exact Hside].
    apply buy_cost_within; [exact Hc|exact Hq0|lra].
  - destruct (process_sell w (upper (o_ticker o)) f) as [w1|e] eqn:Eb; simpl; [|discriminate].
    intros [= <- _]. apply ledger_ok_with_history.
    apply (process_sell_ledger_ok w (upper (o_ticker o)) f w1 Hok); [|intros l pos Hl Hh|exact Eb].
    + rewrite Hfee, Hn. apply sell_proceeds_nonneg; assumption.
    + destruct Hside as (pos0 & Hg & Hle). rewrite get_position_upper in Hg.
      unfold get_position, get_position_loc in Hg. rewrite Hl, Hh in Hg.
      injection Hg as ->. lia.
Qed.

Lemma execute_order_keeps_ledger_ok_witness :
  costs_within_buffer (fill_engine (broker (new_broker 100000 10 10 (25 # 100)))) /\
  ledger_ok (new_broker 100000 10 10 (25 # 100)) /\
  match execute_order (new_broker 100000 10 10 (25 # 100)) (mkOrder "AAPL" BUY 10) 100 with
  | Ok (w', _) => ledger_ok w'
  | Raise _ => False
  end.
Proof.
  assert (Hc : costs_within_buffer (fill_engine (broker (new_broker 100000 10 10 (25 # 100))))).
  { repeat split; apply Qle_bool_iff; reflexivity. }
  assert (Hok : ledger_ok (new_broker 100000 10 10 (25 # 100))).
  { repeat split; simpl; [apply Qle_bool_iff; reflexivity|constructor|tauto]. }
  split; [exact Hc|]. split; [exact Hok|].
  destruct (execute_order (new_broker 100000 10 10 (25 # 100)) (mkOrder "AAPL" BUY 10) 100)
    as [[w' fo]|e] eqn:E.
  - exact (execute_order_keeps_ledger_ok _ _ _ w' fo Hc Hok E).
  - vm_compute in E. discriminate.
Defined.

(** C5: [validate_order] decides every order.  Non-positive quantity or
    price is rejected; for [qty >= 1] and [reference_price > 0] a BUY is
    accepted iff [qty*price*1.005 <= cash] and the projected position value
    over [equity + buffered cost] is at most [max_position_pct], otherwise
    rejected with a reason containing "cash" (cash check failed) or "exceed";
    a SELL is accepted iff the held quantity covers the order, otherwise
    rejected with a reason containing "shares".  The ledger's positions
    satisfy the [Position] field constraints. *)
Theorem validate_order_decides w o p :
  positions_wf w ->
  ((o_qty o <= 0)%Z \/ p <= 0 -> exists m, validate_order w o p = Ok (false, m)) /\
  ((1 <= o_qty o)%Z -> 0 < p ->
   match o_side o with
   | BUY =>
       if Qle_bool (buy_estimated_cost o p) (cash (broker w))
          && Qle_bool (buy_position_pct w o p) (max_position_pct (broker w))
       then validate_order w o p = Ok (true, ""%string)
       else exists m, validate_order w o p = Ok (false, m) /\
         (if Qle_bool (buy_estimated_cost o p) (cash (broker w))
          then contains "exceed" m else contains "cash" m) = true
   | SELL =>
       if (o_qty o <=? get_position_qty w (o_ticker o))%Z
       then validate_order w o p = Ok (true, ""%string)
       else exists m, validate_order w o p = Ok (false, m) /\ contains "shares" m = true
   end).
Proof.
  intros Hwf. split; [apply validate_rejects_nonpositive|].
  intros Hq Hp. destruct (o_side o) eqn:Es.
  - exact (validate_buy_exhaustive w o p Hwf Hq Hp Es).
  - exact (validate_sell_exhaustive w o p Hq Hp Es).
Qed.

Lemma validate_order_decides_witness :
  positions_wf (new_broker 1000 0 0 (25 # 100)) /\
  exists m, validate_order (new_broker 1000 0 0 (25 # 100)) (mkOrder "AAPL" BUY 10) 100
            = Ok (false, m) /\ contains "cash" m = true.
Proof.
  assert (Hwf : positions_wf (new_broker 1000 0 0 (25 # 100))).
  { intros t l p Hin. destruct Hin. }
  split; [exact Hwf|].
  exact (proj2 (validate_order_decides _ (mkOrder "AAPL" BUY 10) 100 Hwf)
           ltac:(simpl; lia) ltac:(reflexivity)).
Defined.

(** C6 (counterexample): with the default-like [fee_bps = 10], buying 10
    AAPL at 100 and selling all 10 at 110 adds [98.9] to [realized_pnl], not
    [10 * (110 - 100) = 100]: the fees are deducted as well. *)
Lemma full_close_pnl_fee_cex :
  match execute_order (new_broker 100000 0 10 1) (mkOrder "AAPL" BUY 10) 100 with
  | Ok (w1, _) =>
      match get_position w1 "AAPL", execute_order w1 (mkOrder "AAPL" SELL 10) 110 with
      | Some pos, Ok (w2, Some f) =>
          p_qty pos = 10%Z /\
          ~ (realized_pnl (broker w2)
             == realized_pnl (broker w1) + inject_Z (p_qty pos) * (f_fill_price f - p_avg_cost pos))
      | _, _ => False
      end
  | Raise _ => False
  end.
Proof. vm_compute. split; [reflexivity|discriminate]. Qed.

(** C6 (amended): selling exactly the held quantity [q] removes the
    position ([get_position] is [None] afterwards) and adds
    [q * (fill_price - avg_cost) - fees] to [realized_pnl]. *)
Theorem sell_full_close w t pos p w' f :
  get_position w t = Some pos ->
  execute_order w (mkOrder t SELL (p_qty pos)) p = Ok (w', Some f) ->
  get_position w' t = None /\
  realized_pnl (broker w') ==
    realized_pnl (broker w) + inject_Z (p_qty pos) * (f_fill_price f - p_avg_cost pos) - f_fees f.
Proof.
  intros Hg He. apply execute_order_fill_inv in He as (Ef & w1 & Hs & ->).
  apply fill_order_ok in Ef as (_ & _ & Hfq & _ & Hn & _). simpl in Hfq, Hn, Hs.
  unfold get_position, get_position_loc in Hg.
  destruct (dict_get (positions (broker w)) (upper t)) as [l|] eqn:Eg; [|discriminate].
  unfold process_sell in Hs. rewrite Eg, Hg in Hs.
  rewrite Hfq, Z.sub_diag in Hs. simpl in Hs. injection Hs as <-.
  split.
  - unfold get_position, get_position_loc. simpl. rewrite dict_get_del. reflexivity.
  - simpl. rewrite Hn. ring.
Qed.

Lemma sell_full_close_witness :
  match execute_order (new_broker 100000 0 10 1) (mkOrder "AAPL" BUY 10) 100 with
  | Ok (w1, _) =>
      match get_position w1 "AAPL" with
      | Some pos =>
          match execute_order w1 (mkOrder "AAPL" SELL (p_qty pos)) 110 with
          | Ok (w2, Some f) =>
              get_position w2 "AAPL" = None /\
              realized_pnl (broker w2) ==
                realized_pnl (broker w1) + inject_Z (p_qty pos) * (f_fill_price f - p_avg_cost pos)
                - f_fees f
          | _ => False
          end
      | None => False
      end
  | Raise _ => False
  end.
Proof.
  destruct (execute_order (new_broker 100000 0 10 1) (mkOrder "AAPL" BUY 10) 100)
    as [[w1 fo]|e] eqn:E1; [|vm_compute in E1; discriminate].
  vm_compute in E1. injection E1 as <- <-.
  destruct (get_position _ "AAPL") as [pos|] eqn:E2; [|vm_compute in E2; discriminate].
  destruct (execute_order _ (mkOrder "AAPL" SELL (p_qty pos)) 110) as [[w2 [f|]]|e] eqn:E3;
    [| vm_compute in E2; injection E2 as <-; vm_compute in E3; discriminate
     | vm_compute in E2; injection E2 as <-; vm_compute in E3; discriminate].
  exact (sell_full_close _ "AAPL" pos 110 w2 f E2 E3).
Defined.

(** C7 (counterexample): from a ledger that already holds 10 AAPL, a BUY of
    10 followed by a BUY of 10 leaves 30 shares, not [q1 + q2 = 20]. *)
Lemma buy_averaging_preheld_cex :
  match execute_order (new_broker 100000 0 0 1) (mkOrder "AAPL" BUY 10) 100 with
  | Ok (w0, _) =>
      match execute_order w0 (mkOrder "AAPL" BUY 10) 100 with
      | Ok (w1, Some _) =>
          match execute_order w1 (mkOrder "AAPL" BUY 10) 200 with
          | Ok (w2, Some _) => option_map p_qty (get_position w2 "AAPL") = Some 30%Z
          | _ => False
          end
      | _ => False
      end
  | Raise _ => False
  end.
Proof. vm_compute. reflexivity. Qed.

(** C7 (amended): for a ledger not holding the ticker, a BUY opens a
    position at [avg_cost = fill_price]; a second BUY of the same ticker
    yields [qty = q1 + q2] and [avg_cost = (q1*p1 + q2*p2)/(q1 + q2)]. *)
Theorem buy_opens_then_averages w t q1 r1 w1 f1 :
  get_position w t = None ->
  execute_order w (mkOrder t BUY q1) r1 = Ok (w1, Some f1) ->
  (exists pos1, get_position w1 t = Some pos1 /\ p_qty pos1 = q1 /\
                p_avg_cost pos1 = f_fill_price f1) /\
  (forall q2 r2 w2 f2,
     execute_order w1 (mkOrder t BUY q2) r2 = Ok (w2, Some f2) ->
     exists pos2, get_position w2 t = Some pos2 /\ p_qty pos2 = (q1 + q2)%Z /\
       p_avg_cost pos2 == (inject_Z q1 * f_fill_price f1 + inject_Z q2 * f_fill_price f2)
                          / (inject_Z q1 + inject_Z q2)).
Proof.
  intros Hg He. apply execute_order_fill_inv in He as (Ef & w1' & Hb & ->).
  apply fill_order_ok in Ef as (_ & _ & Hfq & _). cbn [o_qty] in Hfq.
  cbn [o_side o_ticker] in Hb. unfold process_buy in Hb.
  unfold get_position, get_position_loc in Hg.
  destruct (dict_get (positions (broker w)) (upper t)) as [l|] eqn:Eg.
  { rewrite Hg in Hb. discriminate. }
  injection Hb as <-.
  set (l := fresh (dom (heap w))).
  pose proof (dict_get_app_new (positions (broker w)) (upper t) l Eg) as Hl1.
  split.
  - eexists. unfold get_position, get_position_loc.
    cbn [broker positions heap with_history with_ledger].
    rewrite Hl1, lookup_insert_eq. split; [reflexivity|]. simpl. split; [exact Hfq|reflexivity].
  - intros q2 r2 w2 f2 He2. apply execute_order_fill_inv in He2 as (Ef2 & w2' & Hb2 & ->).
    apply fill_order_ok in Ef2 as (_ & _ & Hfq2 & _). cbn [o_qty] in Hfq2.
    cbn [o_side o_ticker] in Hb2. unfold process_buy in Hb2.
    cbn [broker positions heap with_history with_ledger] in Hb2.
    rewrite Hl1, lookup_insert_eq in Hb2. cbn [p_qty p_avg_cost p_ticker] in Hb2.
    destruct (f_qty f1 + f_qty f2 =? 0)%Z; [discriminate|].
    injection Hb2 as <-. eexists. unfold get_position, get_position_loc.
    cbn [broker positions heap with_history with_ledger].
    rewrite Hl1, lookup_insert_eq. split; [reflexivity|]. cbn [p_qty p_avg_cost].
    rewrite Hfq, Hfq2. split; [reflexivity|].
    rewrite inject_Z_plus.
    assert (E : f_fill_price f1 * inject_Z q1 + f_fill_price f2 * inject_Z q2
                == inject_Z q1 * f_fill_price f1 + inject_Z q2 * f_fill_price f2) by ring.
    rewrite E. reflexivity.
Qed.

Lemma buy_opens_then_averages_witness :
  match execute_order (new_broker 100000 0 0 1) (mkOrder "AAPL" BUY 10) 100 with
  | Ok (w1, Some f1) =>
      exists pos1, get_position w1 "AAPL" = Some pos1 /\ p_qty pos1 = 10%Z /\
                   p_avg_cost pos1 = f_fill_price f1
  | _ => False
  end.
Proof.
  destruct (execute_order (new_broker 100000 0 0 1) (mkOrder "AAPL" BUY 10) 100)
    as [[w1 [f1|]]|e] eqn:E; [|vm_compute in E; discriminate|vm_compute in E; discriminate].
  exact (proj1 (buy_opens_then_averages (new_broker 100000 0 0 1) "AAPL" 10 100 w1 f1
                  eq_refl E)).
Defined.

(* ------------------------------------------------------------------ *)
(** ** Snapshots share the ledger's [Position] objects *)

(** C2 (the code falls short of it): the [Snapshot] returned by
    [get_snapshot] lists the ledger's own [Position] objects, so a later
    [update_prices] on the broker changes the prices, and the equity, seen
    through a snapshot taken before it. Here: a fresh broker with 100000
    cash buys 10 AAPL at 100 (no slippage or fee), takes a snapshot (equity
    100000), then marks AAPL at 120: the old snapshot now reports equity
    100200 and its position's [current_price] reads 120. *)
Theorem snapshot_sees_later_price_updates :
  match execute_order (new_broker 100000 0 0 1) (mkOrder "AAPL" BUY 10) 100 with
  | Ok (w0, _) =>
      match get_snapshot w0 with
      | Ok s =>
          let w1 := update_prices w0 [("AAPL"%string, 120)] in
          equity (heap w0) s == 100000 /\ equity (heap w1) s == 100200 /\
          exists l, s_positions s = [l] /\
            match heap w0 !! l with Some pos => p_current_price pos == 100 | None => False end /\
            match heap w1 !! l with Some pos => p_current_price pos == 120 | None => False end
      | Raise _ => False
      end
  | Raise _ => False
  end.
Proof.
  vm_compute. split; [reflexivity|]. split; [reflexivity|].
  eexists. split; [reflexivity|]. split; reflexivity.
Qed.

(* ------------------------------------------------------------------ *)
(** ** The budget re-check before RiskGuard *)

(** C1 (the code falls short of it): when the Strategist stage yields a
    proposal but the re-read call count no longer leaves room for RiskGuard
    ([limit < count + 1], which needs another process sharing the database
    to have counted calls meanwhile), [_run_competitor] reads
    [risk_guard_result] that was never assigned: the [UnboundLocalError]
    reaches [run_session], whose per-competitor result is the
    [{"error": ...}] shape, and nothing of the run is persisted (the
    database is exactly what the other process left). *)
Theorem riskguard_recheck_failure_errors {P T} cfg (codec : Codec P T) comp stype d prices run_id
    llm interleave st w sb p errs calls :
  has_run_today st (comp_id comp) d stype = false ->
  (get_daily_call_count st (comp_provider comp) d + 2 <= call_limit cfg (comp_provider comp))%Z ->
  get_snapshot (update_prices w prices) = Ok sb ->
  strategist_stage codec llm = (Some p, errs, calls) ->
  (call_limit cfg (comp_provider comp) < get_daily_call_count (interleave st) (comp_provider comp) d + 1)%Z ->
  run_session_entry
    (run_competitor cfg codec comp stype d prices false run_id None llm interleave st w)
  = (Errored msg_unbound_risk_guard_result, interleave st, update_prices w prices).
Proof.
  intros Hrun Hbudget Hsnap Hstage Hre.
  unfold run_competitor. rewrite Hrun. cbn [negb andb].
  replace (call_limit cfg (comp_provider comp) <? get_daily_call_count st (comp_provider comp) d + 2)%Z
    with false by (symmetry; apply Z.ltb_ge; lia).
  rewrite Hsnap. unfold strategist_stage in Hstage. rewrite Hstage.
  replace (call_limit cfg (comp_provider comp) <? get_daily_call_count (interleave st) (comp_provider comp) d + 1)%Z
    with true by (symmetry; apply Z.ltb_lt; lia).
  reflexivity.
Qed.

Lemma riskguard_recheck_failure_errors_witness :
  run_session_entry
    (run_competitor (mkArenaConfig [mkCompetitorConfig "a" "openai"] [("openai"%string, 2%Z)])
       (mkCodec (fun _ => Some tt) (fun _ => Some (@nil Order)) (fun x => x) "strategist prompt" (fun _ => "risk guard prompt"))
       (mkCompetitorConfig "a" "openai") "OPEN" 20000 [] false "run1" None
       (fun _ => mkLLMResponse true "{}" None)
       (fun s => increment_call_count s "openai" 20000 2) empty_storage
       (new_broker 100000 10 10 (1#4)))
  = (Errored msg_unbound_risk_guard_result,
     increment_call_count empty_storage "openai" 20000 2,
     update_prices (new_broker 100000 10 10 (1#4)) []).
Proof.
  eapply (riskguard_recheck_failure_errors
            (mkArenaConfig [mkCompetitorConfig "a" "openai"] [("openai"%string, 2%Z)])
            (mkCodec (fun _ => Some tt) (fun _ => Some (@nil Order)) (fun x => x) "strategist prompt" (fun _ => "risk guard prompt"))
            (mkCompetitorConfig "a" "openai") "OPEN" 20000 [] "run1"
            (fun _ => mkLLMResponse true "{}" None)
            (fun s => increment_call_count s "openai" 20000 2) empty_storage
            (new_broker 100000 10 10 (1#4))).
  - reflexivity.
  - vm_compute. discriminate.
  - reflexivity.
  - reflexivity.
  - reflexivity.
Defined.

(* ------------------------------------------------------------------ *)
(** ** Idempotency of a competitor's run *)

(** C4: when a run log for (competitor, date, session type) is stored and
    [dry_run] is false, [_run_competitor] returns
    [{"skipped": True, "reason": "already_ran"}] with the database and the
    broker unchanged (no trade, snapshot, run log or call count written, no
    order executed), whatever the LLM would answer, the client creation and
    the other writers: no LLM call is made. *)
Theorem already_ran_skips {P T} cfg (codec : Codec P T) comp stype d prices run_id client_error
    llm interleave st w :
  has_run_today st (comp_id comp) d stype = true ->
  run_competitor cfg codec comp stype d prices false run_id client_error llm interleave st w
  = (Ok (Skipped "already_ran"), st, w).
Proof. intros H. unfold run_competitor. rewrite H. reflexivity. Qed.

Lemma already_ran_skips_witness :
  run_competitor (mkArenaConfig [mkCompetitorConfig "a" "openai"] [])
    (mkCodec (fun _ => Some tt) (fun _ => Some (@nil Order)) (fun x => x) "strategist prompt" (fun _ => "risk guard prompt"))
    (mkCompetitorConfig "a" "openai") "OPEN" 20000 [("AAPL"%string, 100)] false "run2" None
    (fun _ => mkLLMResponse true "{}" None) (fun s => s)
    (save_run_log empty_storage (mkRunLog "run1" "a" 20000 "OPEN" [] [] []))
    (new_broker 100000 10 10 (1#4))
  = (Ok (Skipped "already_ran"), save_run_log empty_storage (mkRunLog "run1" "a" 20000 "OPEN" [] [] []),
     new_broker 100000 10 10 (1#4)).
Proof. apply already_ran_skips. reflexivity. Defined.

(* ------------------------------------------------------------------ *)
(** ** Retries and repair of an agent stage *)

(** The loop of [_invoke_with_retry] with [k] retries left only appends
    attempt logs of its agent; it fails iff each of its [k + 1] attempts
    failed, and then it made all of them. *)
Lemma retry_loop_shape {A} a (decode : string -> option A) prompt llm k : forall calls,
  let '(r, calls1) := retry_loop a decode prompt llm k calls in
  (exists new, calls1 = calls ++ new /\ Forall (fun c => call_type c = agent_call_type a) new) /\
  (ar_success r = false <->
     forall i, (i <= k)%nat -> ar_success (parse_response decode (llm (length calls + i)%nat)) = false) /\
  (ar_success r = false -> length calls1 = (length calls + S k)%nat).
Proof.
  induction k as [|k IH]; intros calls; cbn [retry_loop]; unfold agent_invoke.
  - destruct (ar_success (parse_response decode (llm (length calls)))) eqn:E.
    + rewrite ?E. split; [eexists; split; [reflexivity|repeat constructor]|].
      split; [|congruence]. split; [congruence|].
      intros H. specialize (H 0%nat (le_n 0)). rewrite Nat.add_0_r in H. congruence.
    + rewrite ?E. split; [eexists; split; [reflexivity|repeat constructor]|].
      split.
      * split; [|reflexivity]. intros _ i Hi.
        replace i with 0%nat by lia. rewrite Nat.add_0_r. exact E.
      * intros _. rewrite length_app. simpl. lia.
  - destruct (ar_success (parse_response decode (llm (length calls)))) eqn:E.
    + rewrite ?E. split; [eexists; split; [reflexivity|repeat constructor]|].
      split; [|congruence]. split; [congruence|].
      intros H. specialize (H 0%nat (Nat.le_0_l _)). rewrite Nat.add_0_r in H. congruence.
    + rewrite ?E. set (c := mkLLMCall (agent_call_type a) false
                  (ar_error (parse_response decode (llm (length calls))))
                  (ar_raw_response (parse_response decode (llm (length calls)))) prompt).
      specialize (IH (calls ++ [c])).
      destruct (retry_loop a decode prompt llm k (calls ++ [c])) as [r calls1].
      destruct IH as ((new & Hc & Hf) & Hs & Hl).
      rewrite length_app in Hs, Hl. simpl in Hs, Hl.
      split; [exists (c :: new); split; [rewrite Hc, <- app_assoc; reflexivity|constructor; [reflexivity|exact Hf]]|].
      split.
      * rewrite Hs. split.
        -- intros H i Hi. destruct i as [|i]; [rewrite Nat.add_0_r; exact E|].
           replace (length calls + S i)%nat with (length calls + 1 + i)%nat by lia.
           apply H. lia.
        -- intros H i Hi. replace (length calls + 1 + i)%nat with (length calls + S i)%nat by lia.
           apply H. lia.
      * intros Hr. rewrite (Hl Hr). lia.
Qed.





(* ------------------------------------------------------------------ *)
(** ** The session gate *)

Lemma check_already_ran_blocked st comps today stype c :
  In c comps -> has_run_today st (comp_id c) today stype = true ->
  fst (check_already_ran st comps today stype) = false.
Proof.
  induction comps as [|c' rest IH]; simpl; [tauto|].
  intros [<-|Hin] Hrun.
  - rewrite Hrun. reflexivity.
  - destruct (has_run_today st (comp_id c') today stype); [reflexivity|]. exact (IH Hin Hrun).
Qed.


(** C10: [should_run] has no competitor parameter and loops over all the
    configured competitors: as soon as one of them has a run log for
    (today, session type), the gate never answers [True], for every market
    and instant, on the equity path as on the crypto path, so a competitor
    that has not run yet is blocked too. (The gate may also raise before
    answering, on an unknown market type or an empty crypto
    [session_times].) *)
Theorem gate_blocked_by_any_competitor cfg st adapter market stype now c b r :
  In c (competitors cfg) ->
  has_run_today st (comp_id c) (day_of now) stype = true ->
  should_run cfg st adapter market stype now = Ok (b, r) -> b = false.
Proof.
  intros Hin Hrun.
  pose proof (check_already_ran_blocked st (competitors cfg) (day_of now) stype c Hin Hrun) as Hb.
  destruct (check_already_ran st (competitors cfg) (day_of now) stype) as [b0 r0] eqn:Ec.
  cbn [fst] in Hb. subst b0.
  unfold should_run, check_crypto_session. cbv zeta. rewrite ?Ec.
  repeat match goal with
  | |- context [if ?x then _ else _] => destruct x
  | |- context [match nth_error ?l ?i with _ => _ end] => destruct (nth_error l i) as [?|]
  | |- context [rbind (parse_session_time ?t) _] =>
      destruct (parse_session_time t) as [[? ?]|?]; cbn [rbind]
  | |- context [match get_session_times ?a ?d with _ => _ end] =>
      destruct (get_session_times a d) as [[? ?]|]
  end;
  intros H; try discriminate H; injection H as <- <-; reflexivity.
Qed.

Lemma gate_blocked_by_any_competitor_witness :
  has_run_today (save_run_log empty_storage (mkRunLog "run1" "a" 20000 "OPEN" [] [] [])) "b" 20000 "OPEN"
    = false /\
  match should_run
          (mkArenaConfig [mkCompetitorConfig "a" "openai"; mkCompetitorConfig "b" "gemini"] [])
          (save_run_log empty_storage (mkRunLog "run1" "a" 20000 "OPEN" [] [] []))
          (mkMarketAdapter (fun _ => true)
             (fun d => Some (d * 86400 + 34200, d * 86400 + 57600)%Z) (fun _ => None))
          (mkMarketConfig "us_equity" []) "OPEN" (20000 * 86400 + 34500)%Z with
  | Ok (b, _) => b = false
  | Raise _ => False
  end.
Proof.
  split; [reflexivity|].
  destruct (should_run
          (mkArenaConfig [mkCompetitorConfig "a" "openai"; mkCompetitorConfig "b" "gemini"] [])
          (save_run_log empty_storage (mkRunLog "run1" "a" 20000 "OPEN" [] [] []))
          (mkMarketAdapter (fun _ => true)
             (fun d => Some (d * 86400 + 34200, d * 86400 + 57600)%Z) (fun _ => None))
          (mkMarketConfig "us_equity" []) "OPEN" (20000 * 86400 + 34500)%Z)
    as [[b r]|e] eqn:E; [|vm_compute in E; discriminate E].
  refine (gate_blocked_by_any_competitor _ _ _ _ _ _ (mkCompetitorConfig "a" "openai") b r _ _ E).
  - left. reflexivity.
  - reflexivity.
Defined.




(* ================================================================== *)
(** * Further properties: sim/broker.py and sim/fills.py *)

(** An [execute_order] that returns a fill went through a passing
    validation, [fill_order] and the processing of its side. *)
Lemma execute_order_some_inv w o r w' f :
  execute_order w o r = Ok (w', Some f) ->
  (exists m, validate_order w o r = Ok (true, m)) /\
  fill_order (fill_engine (broker w)) o r = Ok f /\
  exists w1,
    match o_side o with
    | BUY => process_buy w (upper (o_ticker o)) f
    | SELL => process_sell w (upper (o_ticker o)) f
    end = Ok w1 /\
    w' = mkWorld (heap w1) (with_history (broker w1) (fill_history (broker w1) ++ [f])).
Proof.
  unfold execute_order.
  destruct (validate_order w o r) as [[v m]|e]; simpl; [|discriminate].
  destruct v; simpl; [|discriminate].
  destruct (fill_order (fill_engine (broker w)) o r) as [f0|e] eqn:Ef; simpl; [|discriminate].
  destruct (match o_side o with
            | BUY => process_buy w (upper (o_ticker o)) f0
            | SELL => process_sell w (upper (o_ticker o)) f0
            end) as [w1|e] eqn:Ep; simpl; [|discriminate].
  intros [= <- <-]. split; [eexists; reflexivity|]. split; [reflexivity|].
  exists w1. split; [exact Ep|reflexivity].
Qed.

(** X1: [execute_order] returns [(w, None)] exactly when validation rejects
    the order, and then the broker and its positions are left untouched. *)
Theorem execute_order_none_iff_rejected w o p w' :
  execute_order w o p = Ok (w', None) <->
  w' = w /\ exists m, validate_order w o p = Ok (false, m).
Proof.
  unfold execute_order. split.
  - destruct (validate_order w o p) as [[v m]|e]; simpl; [|discriminate].
    destruct v; simpl.
    + destruct (fill_order (fill_engine (broker w)) o p) as [f|e]; simpl; [|discriminate].
      destruct (match o_side o with
                | BUY => process_buy w (upper (o_ticker o)) f
                | SELL => process_sell w (upper (o_ticker o)) f
                end) as [w1|e]; simpl; discriminate.
    + intros [= <-]. split; [reflexivity|]. eexists; reflexivity.
  - intros [-> [m ->]]. reflexivity.
Qed.

(** X2: the cash and P&L accounting of a filled order: a BUY takes
    [notional + fees] from cash and leaves [realized_pnl]; a SELL of a held
    position adds [notional - fees] to cash and [notional - fees - avg_cost*qty]
    to [realized_pnl]; the fill is appended to [fill_history]. *)
Theorem execute_order_cash_accounting w o p w' f :
  execute_order w o p = Ok (w', Some f) ->
  fill_history (broker w') = fill_history (broker w) ++ [f] /\
  match o_side o with
  | BUY =>
      cash (broker w') = cash (broker w) - (f_notional f + f_fees f) /\
      realized_pnl (broker w') = realized_pnl (broker w)
  | SELL =>
      exists pos, get_position w (o_ticker o) = Some pos /\
      cash (broker w') = cash (broker w) + (f_notional f - f_fees f) /\
      realized_pnl (broker w') =
        realized_pnl (broker w) + (f_notional f - f_fees f - p_avg_cost pos * inject_Z (f_qty f))
  end.
Proof.
  intros He. apply execute_order_fill_inv in He as (_ & w1 & Hp & ->).
  destruct (o_side o).
  - unfold process_buy in Hp.
    destruct (dict_get (positions (broker w)) (upper (o_ticker o))) as [l|].
    + destruct (heap w !! l) as [pos|]; [|discriminate].
      destruct (p_qty pos + f_qty f =? 0)%Z; [discriminate|].
      injection Hp as <-. simpl. auto.
    + injection Hp as <-. simpl. auto.
  - unfold process_sell in Hp. unfold get_position, get_position_loc.
    destruct (dict_get (positions (broker w)) (upper (o_ticker o))) as [l|]; [|discriminate].
    destruct (heap w !! l) as [pos|]; [|discriminate].
    injection Hp as <-. simpl. split; [reflexivity|].
    exists pos. auto.
Qed.

Lemma execute_order_cash_accounting_witness :
  exists w' f,
  execute_order
    (mkWorld (<[1%positive := mkPosition "AAPL" 10 90 100]> ∅)
       (mkSimBroker 1000 2000 [("AAPL", 1%positive)] 0 1 (mkFillEngine 10 10) []))
    (mkOrder "AAPL" SELL 4) 100 = Ok (w', Some f) /\
  fill_history (broker w') = [] ++ [f] /\
  exists pos, get_position
    (mkWorld (<[1%positive := mkPosition "AAPL" 10 90 100]> ∅)
       (mkSimBroker 1000 2000 [("AAPL", 1%positive)] 0 1 (mkFillEngine 10 10) [])) "AAPL" = Some pos /\
  cash (broker w') = 1000 + (f_notional f - f_fees f) /\
  realized_pnl (broker w') = 0 + (f_notional f - f_fees f - p_avg_cost pos * inject_Z (f_qty f)).
Proof.
  destruct (execute_order
    (mkWorld (<[1%positive := mkPosition "AAPL" 10 90 100]> ∅)
       (mkSimBroker 1000 2000 [("AAPL", 1%positive)] 0 1 (mkFillEngine 10 10) []))
    (mkOrder "AAPL" SELL 4) 100) as [[w' [f|]]|e] eqn:E;
    [|vm_compute in E; discriminate E|vm_compute in E; discriminate E].
  exists w', f. split; [reflexivity|].
  exact (execute_order_cash_accounting _ _ _ w' f E).
Defined.

(** X3: a SELL of a held position keeps its [avg_cost], lowers its quantity
    by the sold quantity and marks it at the fill price; the position is
    removed when nothing is left. *)
Theorem execute_sell_position_update w o p w' f pos :
  o_side o = SELL -> get_position w (o_ticker o) = Some pos ->
  execute_order w o p = Ok (w', Some f) ->
  get_position w' (o_ticker o) =
    if (f_qty f <? p_qty pos)%Z
    then Some (mkPosition (p_ticker pos) (p_qty pos - f_qty f) (p_avg_cost pos) (f_fill_price f))
    else None.
Proof.
  intros Hs Hg He. apply execute_order_some_inv in He as ((m & Hv) & _ & w1 & Hp & ->).
  apply validate_true_inv in Hv as (_ & _ & Hside). rewrite Hs in Hp, Hside.
  destruct Hside as (pos0 & Hg0 & Hle). rewrite get_position_upper, Hg in Hg0.
  injection Hg0 as <-.
  unfold get_position, get_position_loc in Hg |- *.
  unfold process_sell in Hp.
  destruct (dict_get (positions (broker w)) (upper (o_ticker o))) as [l|] eqn:Eg; [|discriminate].
  rewrite Hg in Hp. injection Hp as <-. cbn [heap broker with_history with_ledger positions].
  destruct (f_qty f <? p_qty pos)%Z eqn:Elt.
  - apply Z.ltb_lt in Elt.
    assert (E0 : (p_qty pos - f_qty f <=? 0)%Z = false) by (apply Z.leb_gt; lia).
    cbn [p_qty]. rewrite E0, Eg. rewrite lookup_insert_eq. reflexivity.
  - apply Z.ltb_ge in Elt.
    assert (E0 : (p_qty pos - f_qty f <=? 0)%Z = true) by (apply Z.leb_le; lia).
    cbn [p_qty]. rewrite E0, dict_get_del. reflexivity.
Qed.

Lemma execute_sell_position_update_witness :
  exists w' f,
  execute_order
    (mkWorld (<[1%positive := mkPosition "AAPL" 10 90 100]> ∅)
       (mkSimBroker 1000 2000 [("AAPL", 1%positive)] 0 1 (mkFillEngine 10 10) []))
    (mkOrder "AAPL" SELL 4) 100 = Ok (w', Some f) /\
  get_position w' "AAPL" =
    if (f_qty f <? 10)%Z
    then Some (mkPosition "AAPL" (10 - f_qty f) 90 (f_fill_price f))
    else None.
Proof.
  destruct (execute_order
    (mkWorld (<[1%positive := mkPosition "AAPL" 10 90 100]> ∅)
       (mkSimBroker 1000 2000 [("AAPL", 1%positive)] 0 1 (mkFillEngine 10 10) []))
    (mkOrder "AAPL" SELL 4) 100) as [[w' [f|]]|e] eqn:E;
    [|vm_compute in E; discriminate E|vm_compute in E; discriminate E].
  exists w', f. split; [reflexivity|].
  refine (execute_sell_position_update _ (mkOrder "AAPL" SELL 4) 100 w' f
           (mkPosition "AAPL" 10 90 100) eq_refl _ E).
  vm_compute. reflexivity.
Defined.

(** X4: [FillEngine.simulate_fill] (the preview used by no order path) gives
    the same fill price, slippage, notional and fees as the [Fill] that
    [execute_order] records for the same order and base price, and its
    [total_cost] / [total_proceeds] are exactly the cash the order moves. *)
Theorem simulate_fill_matches_execute w o p w' f :
  execute_order w o p = Ok (w', Some f) ->
  let sf := simulate_fill (fill_engine (broker w)) (o_ticker o) (o_side o) (o_qty o) p in
  sf_fill_price sf = f_fill_price f /\ sf_slippage sf = f_slippage f /\
  sf_notional sf = f_notional f /\ sf_fees sf = f_fees f /\
  cash (broker w') == cash (broker w) - sf_total_cost sf + sf_total_proceeds sf.
Proof.
  intros He. apply execute_order_fill_inv in He as (Ef & w1 & Hp & ->).
  unfold fill_order, Fill_from_order in Ef.
  destruct (Qltb _ 0) eqn:E1 in Ef; [discriminate|].
  destruct (Qltb (compute_fees _ _) 0) eqn:E2 in Ef; [discriminate|].
  injection Ef as <-. cbv zeta. unfold simulate_fill.
  destruct (o_side o) eqn:Es.
  - unfold process_buy in Hp.
    destruct (dict_get (positions (broker w)) (upper (o_ticker o))) as [l|].
    + destruct (heap w !! l) as [pos|]; [|discriminate].
      destruct (_ =? 0)%Z; [discriminate|].
      injection Hp as <-. cbn. repeat split; ring.
    + injection Hp as <-. cbn. repeat split; ring.
  - unfold process_sell in Hp.
    destruct (dict_get (positions (broker w)) (upper (o_ticker o))) as [l|]; [|discriminate].
    destruct (heap w !! l) as [pos|]; [|discriminate].
    injection Hp as <-. cbn. repeat split; ring.
Qed.

Lemma simulate_fill_matches_execute_witness :
  exists w' f,
  execute_order (new_broker 100000 10 10 (25 # 100)) (mkOrder "AAPL" BUY 10) 100 = Ok (w', Some f) /\
  let sf := simulate_fill (mkFillEngine 10 10) "AAPL" BUY 10 100 in
  sf_fill_price sf = f_fill_price f /\ sf_slippage sf = f_slippage f /\
  sf_notional sf = f_notional f /\ sf_fees sf = f_fees f /\
  cash (broker w') == 100000 - sf_total_cost sf + sf_total_proceeds sf.
Proof.
  destruct (execute_order (new_broker 100000 10 10 (25 # 100)) (mkOrder "AAPL" BUY 10) 100)
    as [[w' [f|]]|e] eqn:E;
    [|vm_compute in E; discriminate E|vm_compute in E; discriminate E].
  exists w', f. split; [reflexivity|].
  exact (simulate_fill_matches_execute _ _ _ w' f E).
Defined.

(** X5: with a non-negative slippage rate and base price, [fill_order] never
    fills a BUY below the base price nor a SELL above it; the recorded
    slippage is [(fill_price - base_price) * qty], the notional
    [qty * fill_price] and the fees [notional * fee_bps / 10000 >= 0]. *)
Theorem fill_order_price_bounds fe o p f :
  0 <= slippage_bps fe -> 0 <= p -> fill_order fe o p = Ok f ->
  match o_side o with
  | BUY => p <= f_fill_price f
  | SELL => f_fill_price f <= p
  end /\
  f_slippage f == (f_fill_price f - p) * inject_Z (f_qty f) /\
  f_notional f == inject_Z (f_qty f) * f_fill_price f /\
  f_fees f == f_notional f * (fee_bps fe / 10000) /\ 0 <= f_fees f.
Proof.
  intros Hs Hp Ef. unfold fill_order, Fill_from_order in Ef.
  destruct (Qltb _ 0) eqn:E1 in Ef; [discriminate|].
  destruct (Qltb (compute_fees _ _) 0) eqn:E2 in Ef; [discriminate|].
  apply Qltb_false in E2.
  injection Ef as <-. cbn [f_fill_price f_slippage f_notional f_fees f_qty].
  assert (Hr : 0 <= p * (slippage_bps fe / 10000)).
  { apply Qmult_le_0_compat; [exact Hp|]. apply Qle_shift_div_l; [reflexivity|]. lra. }
  unfold compute_fill_price, compute_slippage, compute_fees in *.
  destruct (o_side o); (split; [lra|]); (split; [ring|]); (split; [reflexivity|]);
    (split; [reflexivity|exact E2]).
Qed.

Lemma fill_order_price_bounds_witness :
  exists f,
  fill_order (mkFillEngine 10 10) (mkOrder "AAPL" SELL 3) 50 = Ok f /\
  f_fill_price f <= 50 /\
  f_slippage f == (f_fill_price f - 50) * inject_Z (f_qty f) /\
  f_notional f == inject_Z (f_qty f) * f_fill_price f /\
  f_fees f == f_notional f * (10 / 10000) /\ 0 <= f_fees f.
Proof.
  destruct (fill_order (mkFillEngine 10 10) (mkOrder "AAPL" SELL 3) 50) as [f|e] eqn:E;
    [|vm_compute in E; discriminate E].
  exists f. split; [reflexivity|].
  refine (fill_order_price_bounds (mkFillEngine 10 10) (mkOrder "AAPL" SELL 3) 50 f _ _ E).
  - apply Qle_bool_iff. reflexivity.
  - apply Qle_bool_iff. reflexivity.
Defined.

(** Sums of held market values over the ledger's dict. *)
Lemma held_insert_notin (h : gmap loc Position) (ps : list (string * loc)) l p :
  ~ In l (map snd ps) ->
  fold_right (fun tl acc => position_market_value (<[l := p]> h) (snd tl) + acc) 0 ps
  = fold_right (fun tl acc => position_market_value h (snd tl) + acc) 0 ps.
Proof.
  induction ps as [|[t l'] ps IH]; cbn [fold_right map snd In]; intros Hn; [reflexivity|].
  rewrite IH by tauto. unfold position_market_value.
  rewrite lookup_insert_ne by (intros Heq; subst; tauto). reflexivity.
Qed.

Lemma held_insert_in (h : gmap loc Position) (ps : list (string * loc)) l p p0 :
  List.NoDup (map snd ps) -> In l (map snd ps) -> h !! l = Some p0 ->
  fold_right (fun tl acc => position_market_value (<[l := p]> h) (snd tl) + acc) 0 ps
  == fold_right (fun tl acc => position_market_value h (snd tl) + acc) 0 ps
     + market_value p - market_value p0.
Proof.
  induction ps as [|[t l'] ps IH]; cbn [fold_right map snd In]; intros Hnd Hin Hl; [tauto|].
  apply List.NoDup_cons_iff in Hnd as [Hn Hnd'].
  destruct (decide (l' = l)) as [->|Hne].
  - rewrite held_insert_notin by exact Hn.
    assert (E1 : position_market_value (<[l := p]> h) l = market_value p)
      by (unfold position_market_value; rewrite lookup_insert_eq; reflexivity).
    assert (E2 : position_market_value h l = market_value p0)
      by (unfold position_market_value; rewrite Hl; reflexivity).
    rewrite E1, E2. ring.
  - destruct Hin as [Hin|Hin]; [congruence|].
    assert (E1 : position_market_value (<[l := p]> h) l' = position_market_value h l')
      by (unfold position_market_value; rewrite lookup_insert_ne by congruence; reflexivity).
    rewrite E1, (IH Hnd' Hin Hl). ring.
Qed.

Lemma held_app (h : gmap loc Position) (ps qs : list (string * loc)) :
  fold_right (fun tl acc => position_market_value h (snd tl) + acc) 0 (ps ++ qs)
  == fold_right (fun tl acc => position_market_value h (snd tl) + acc) 0 ps
     + fold_right (fun tl acc => position_market_value h (snd tl) + acc) 0 qs.
Proof.
  induction ps as [|tl ps IH]; cbn [fold_right app]; [ring|]. rewrite IH. ring.
Qed.

Lemma dict_del_notin {V} (d : list (string * V)) k : ~ In k (map fst d) -> dict_del d k = d.
Proof.
  unfold dict_del. induction d as [|[k' v] d IH]; cbn [List.filter map fst In]; intros Hn; [reflexivity|].
  destruct (String.eqb_spec k' k) as [->|Hne]; [tauto|]. cbn [negb]. f_equal. apply IH. tauto.
Qed.

Lemma held_del (h : gmap loc Position) (ps : list (string * loc)) t l :
  List.NoDup (map fst ps) -> dict_get ps t = Some l ->
  fold_right (fun tl acc => position_market_value h (snd tl) + acc) 0 (dict_del ps t)
  == fold_right (fun tl acc => position_market_value h (snd tl) + acc) 0 ps
     - position_market_value h l.
Proof.
  induction ps as [|[k l'] ps IH]; cbn [dict_get map fst]; intros Hnd Hg; [discriminate|].
  apply List.NoDup_cons_iff in Hnd as [Hn Hnd'].
  unfold dict_del. cbn [List.filter fst].
  destruct (String.eqb_spec k t) as [->|Hne].
  - injection Hg as ->. cbn [negb]. fold (dict_del ps t). rewrite dict_del_notin by exact Hn.
    cbn [fold_right snd]. ring.
  - cbn [negb fold_right snd]. fold (dict_del ps t). rewrite (IH Hnd' Hg). ring.
Qed.

(** X6: how a filled order moves the equity of the ledger
    ([cash + sum of qty * current_price]): by minus the fees, plus the
    re-marking of the quantity held before at the fill price. In
    particular opening a position costs exactly its fees. *)
Theorem execute_order_equity_change w o p w' f :
  ledger_ok w -> List.NoDup (map fst (positions (broker w))) ->
  execute_order w o p = Ok (w', Some f) ->
  ledger_equity w' ==
    ledger_equity w - f_fees f +
    match get_position w (o_ticker o) with
    | Some pos => inject_Z (p_qty pos) * (f_fill_price f - p_current_price pos)
    | None => 0
    end.
Proof.
  intros (Hc & Hnd & Hpos) Hndk He.
  apply execute_order_some_inv in He as ((m & Hv) & Ef & w1 & Hp & ->).
  apply validate_true_inv in Hv as (_ & _ & Hside).
  apply fill_order_ok in Ef as (_ & _ & Hfq & _ & Hn & _).
  rewrite <- (get_position_upper w (o_ticker o)).
  unfold ledger_equity, get_position, get_position_loc. rewrite upper_idem.
  destruct (o_side o) eqn:Es.
  - unfold process_buy in Hp.
    destruct (dict_get (positions (broker w)) (upper (o_ticker o))) as [l|] eqn:Eg.
    + destruct (heap w !! l) as [pos|] eqn:Eh; [|discriminate].
      destruct (p_qty pos + f_qty f =? 0)%Z; [discriminate|].
      injection Hp as <-. cbn [heap broker with_history with_ledger cash positions].
      rewrite (held_insert_in (heap w) _ l _ pos Hnd
                 (in_map snd _ _ (dict_get_In _ _ _ Eg)) Eh).
      unfold market_value. cbn [p_qty p_current_price].
      rewrite Hn, inject_Z_plus, Hfq. ring.
    + injection Hp as <-. cbn [heap broker with_history with_ledger cash positions].
      set (l := fresh (dom (heap w))).
      assert (Hfresh : ~ In l (map snd (positions (broker w)))).
      { intros Hin. apply in_map_iff in Hin as [[t2 l2] [Heq Hin]]. cbn [snd] in Heq. subst l2.
        destruct (Hpos _ _ Hin) as (p0 & Hp0 & _).
        apply (is_fresh (dom (heap w))). apply elem_of_dom. exists p0. exact Hp0. }
      rewrite held_app, held_insert_notin by exact Hfresh. cbn [fold_right snd].
      assert (E1 : position_market_value
                     (<[l := mkPosition (upper (o_ticker o)) (f_qty f) (f_fill_price f) (f_fill_price f)]>
                        (heap w)) l = inject_Z (f_qty f) * f_fill_price f)
        by (unfold position_market_value; rewrite lookup_insert_eq; reflexivity).
      rewrite E1, Hn, Hfq. ring.
  - unfold process_sell in Hp.
    destruct (dict_get (positions (broker w)) (upper (o_ticker o))) as [l|] eqn:Eg; [|discriminate].
    destruct (heap w !! l) as [pos|] eqn:Eh; [|discriminate].
    destruct Hside as (pos0 & Hg0 & Hle).
    unfold get_position, get_position_loc in Hg0. rewrite upper_idem, Eg, Eh in Hg0.
    injection Hg0 as <-.
    injection Hp as <-. cbn [heap broker with_history with_ledger cash positions p_qty].
    pose proof (in_map snd _ _ (dict_get_In _ _ _ Eg)) as Hin. cbn [snd] in Hin.
    destruct (p_qty pos - f_qty f <=? 0)%Z eqn:Ez.
    + apply Z.leb_le in Ez.
      rewrite (held_del _ _ _ l Hndk Eg).
      rewrite (held_insert_in (heap w) _ l _ pos Hnd Hin Eh).
      assert (E1 : position_market_value
                     (<[l := mkPosition (p_ticker pos) (p_qty pos - f_qty f) (p_avg_cost pos)
                               (f_fill_price f)]> (heap w)) l
                   = inject_Z (p_qty pos - f_qty f) * f_fill_price f)
        by (unfold position_market_value; rewrite lookup_insert_eq; reflexivity).
      rewrite E1. unfold market_value. cbn [p_qty p_current_price].
      assert (Eq : p_qty pos = f_qty f) by lia.
      rewrite Hn, Eq, Hfq. unfold Z.sub. rewrite inject_Z_plus, inject_Z_opp. ring.
    + rewrite (held_insert_in (heap w) _ l _ pos Hnd Hin Eh).
      unfold market_value. cbn [p_qty p_current_price].
      rewrite Hn, Hfq. unfold Z.sub. rewrite inject_Z_plus, inject_Z_opp. ring.
Qed.

Lemma execute_order_equity_change_witness :
  ledger_ok
    (mkWorld (<[1%positive := mkPosition "AAPL" 10 90 100]> ∅)
       (mkSimBroker 1000 2000 [("AAPL", 1%positive)] 0 1 (mkFillEngine 10 10) [])) /\
  exists w' f,
  execute_order
    (mkWorld (<[1%positive := mkPosition "AAPL" 10 90 100]> ∅)
       (mkSimBroker 1000 2000 [("AAPL", 1%positive)] 0 1 (mkFillEngine 10 10) []))
    (mkOrder "AAPL" SELL 4) 110 = Ok (w', Some f) /\
  ledger_equity w' == 2000 - f_fees f + 10 * (f_fill_price f - 100).
Proof.
  assert (Hok : ledger_ok
    (mkWorld (<[1%positive := mkPosition "AAPL" 10 90 100]> ∅)
       (mkSimBroker 1000 2000 [("AAPL", 1%positive)] 0 1 (mkFillEngine 10 10) []))).
  { split; [apply Qle_bool_iff; reflexivity|]. split; [repeat constructor; simpl; tauto|].
    intros t l [Heq|[]]. injection Heq as <- <-. eexists. split; [reflexivity|]. cbn. lia. }
  split; [exact Hok|].
  destruct (execute_order
    (mkWorld (<[1%positive := mkPosition "AAPL" 10 90 100]> ∅)
       (mkSimBroker 1000 2000 [("AAPL", 1%positive)] 0 1 (mkFillEngine 10 10) []))
    (mkOrder "AAPL" SELL 4) 110) as [[w' [f|]]|e] eqn:E;
    [|vm_compute in E; discriminate E|vm_compute in E; discriminate E].
  exists w', f. split; [reflexivity|].
  rewrite (execute_order_equity_change _ _ _ w' f Hok) by (exact E || (repeat constructor; simpl; tauto)).
  vm_compute. reflexivity.
Defined.

Lemma execute_order_none_inv w o p w' : execute_order w o p = Ok (w', None) -> w' = w.
Proof.
  unfold execute_order.
  destruct (validate_order w o p) as [[v m]|e]; simpl; [|discriminate].
  destruct v; simpl; [|congruence].
  destruct (fill_order (fill_engine (broker w)) o p) as [f|e]; simpl; [|discriminate].
  destruct (match o_side o with
            | BUY => process_buy w (upper (o_ticker o)) f
            | SELL => process_sell w (upper (o_ticker o)) f
            end) as [w1|e]; simpl; discriminate.
Qed.

Lemma execute_order_frame w o p w' fo :
  execute_order w o p = Ok (w', fo) ->
  fill_engine (broker w') = fill_engine (broker w) /\
  fill_history (broker w') = fill_history (broker w) ++ match fo with Some f => [f] | None => [] end /\
  match fo with
  | Some f => f_ticker f = o_ticker o /\ f_side f = o_side o /\ f_qty f = o_qty o
  | None => True
  end.
Proof.
  destruct fo as [f|].
  - intros He. apply execute_order_fill_inv in He as (Ef & w1 & Hp & ->).
    apply fill_order_ok in Ef as (Ht & Hs & Hq & _).
    cbn [broker with_history fill_engine fill_history].
    enough (fill_engine (broker w1) = fill_engine (broker w) /\
            fill_history (broker w1) = fill_history (broker w)) as [-> ->] by auto.
    destruct (o_side o).
    + unfold process_buy in Hp.
      destruct (dict_get (positions (broker w)) (upper (o_ticker o))) as [l|].
      * destruct (heap w !! l) as [pos|]; [|discriminate].
        destruct (_ =? 0)%Z; [discriminate|]. injection Hp as <-. auto.
      * injection Hp as <-. auto.
    + unfold process_sell in Hp.
      destruct (dict_get (positions (broker w)) (upper (o_ticker o))) as [l|]; [|discriminate].
      destruct (heap w !! l) as [pos|]; [|discriminate]. injection Hp as <-. auto.
  - intros He. apply execute_order_none_inv in He as ->. rewrite app_nil_r. auto.
Qed.

(** The step of the ledger invariant (the argument of [execute_order]
    under [costs_within_buffer]). *)
Lemma execute_order_ledger_ok_step w o p w' fo :
  costs_within_buffer (fill_engine (broker w)) -> ledger_ok w ->
  execute_order w o p = Ok (w', fo) -> ledger_ok w'.
Proof.
  intros Hc Hok. unfold execute_order.
  destruct (validate_order w o p) as [[v m]|e] eqn:Ev; simpl; [|discriminate].
  destruct v; simpl; [|intros [= <- _]; exact Hok].
  destruct (fill_order (fill_engine (broker w)) o p) as [f|e] eqn:Ef; simpl; [|discriminate].
  apply validate_true_inv in Ev as (Hq & Hp & Hside).
  apply fill_order_ok in Ef as (Ht & Hs & Hfq & Hfp & Hn & Hfee & Hfp0 & Hfee0).
  assert (Hq0 : 0 <= inject_Z (o_qty o)).
  { change 0 with (inject_Z 0). rewrite <- Zle_Qle. lia. }
  destruct (o_side o) eqn:Eside.
  - destruct (process_buy w (upper (o_ticker o)) f) as [w1|e] eqn:Eb; simpl; [|discriminate].
    intros [= <- _]. apply ledger_ok_with_history.
    apply (process_buy_ledger_ok w (upper (o_ticker o)) f w1 Hok); [lia| |exact Eb].
    rewrite Hfee, Hn, Hfp. eapply Qle_trans; [|exact Hside].
    apply buy_cost_within; [exact Hc|exact Hq0|lra].
  - destruct (process_sell w (upper (o_ticker o)) f) as [w1|e] eqn:Eb; simpl; [|discriminate].
    intros [= <- _]. apply ledger_ok_with_history.
    apply (process_sell_ledger_ok w (upper (o_ticker o)) f w1 Hok); [|intros l pos Hl Hh|exact Eb].
    + rewrite Hfee, Hn. apply sell_proceeds_nonneg; assumption.
    + destruct Hside as (pos0 & Hg & Hle). rewrite get_position_upper in Hg.
      unfold get_position, get_position_loc in Hg. rewrite Hl, Hh in Hg.
      injection Hg as ->. lia.
Qed.

Lemma dict_get_none_notin {V} (d : list (string * V)) k : dict_get d k = None -> ~ In k (map fst d).
Proof.
  induction d as [|[k' v] d IH]; cbn [dict_get map fst In]; [tauto|].
  destruct (String.eqb_spec k' k) as [->|Hne]; [discriminate|]. intros H [H'|H']; [congruence|].
  exact (IH H H').
Qed.

Lemma NoDup_map_filter {A B} (g : A -> B) (f : A -> bool) (l : list A) :
  List.NoDup (map g l) -> List.NoDup (map g (List.filter f l)).
Proof.
  induction l as [|a l IH]; cbn [map List.filter]; intros Hnd; [constructor|].
  apply List.NoDup_cons_iff in Hnd as [Ha Hl].
  destruct (f a); cbn [map]; [|auto].
  constructor; [|auto].
  intros Hin. apply Ha. apply in_map_iff in Hin as [a' [Heq Hin]].
  apply filter_In in Hin as [Hin _]. rewrite <- Heq. apply in_map, Hin.
Qed.

(** The dict keys of the ledger stay distinct. *)
Lemma execute_order_keys_nodup w o p w' fo :
  List.NoDup (map fst (positions (broker w))) ->
  execute_order w o p = Ok (w', fo) -> List.NoDup (map fst (positions (broker w'))).
Proof.
  intros Hnd. destruct fo as [f|]; [|intros He; apply execute_order_none_inv in He as ->; exact Hnd].
  intros He. apply execute_order_fill_inv in He as (_ & w1 & Hp & ->).
  cbn [broker with_history positions].
  destruct (o_side o).
  - unfold process_buy in Hp.
    destruct (dict_get (positions (broker w)) (upper (o_ticker o))) as [l|] eqn:Eg.
    + destruct (heap w !! l) as [pos|]; [|discriminate].
      destruct (_ =? 0)%Z; [discriminate|]. injection Hp as <-. exact Hnd.
    + injection Hp as <-. cbn [broker with_ledger positions]. rewrite map_app.
      apply NoDup_snoc; [exact Hnd|]. exact (dict_get_none_notin _ _ Eg).
  - unfold process_sell in Hp.
    destruct (dict_get (positions (broker w)) (upper (o_ticker o))) as [l|]; [|discriminate].
    destruct (heap w !! l) as [pos|]; [|discriminate]. injection Hp as <-.
    cbn [broker with_ledger positions].
    destruct (_ <=? 0)%Z; [apply NoDup_map_filter|]; exact Hnd.
Qed.

(** X7: [execute_orders] appends to [fill_history] exactly the fills it
    returns, at most one per order, each one for the ticker, side and
    quantity of one of the given orders. *)
Theorem execute_orders_fills w orders prices w' fills :
  execute_orders w orders prices = Ok (w', fills) ->
  fill_history (broker w') = fill_history (broker w) ++ fills /\
  (length fills <= length orders)%nat /\
  Forall (fun f => exists o, In o orders /\
            f_ticker f = o_ticker o /\ f_side f = o_side o /\ f_qty f = o_qty o) fills.
Proof.
  revert w w' fills. induction orders as [|o rest IH]; intros w w' fills; cbn [execute_orders].
  - intros [= <- <-]. rewrite app_nil_r. split; [reflexivity|]. split; [cbn; lia|constructor].
  - destruct (dict_get prices (upper (o_ticker o))) as [price|].
    + destruct (execute_order w o price) as [[w1 fo]|e] eqn:E1; cbn [rbind]; [|discriminate].
      destruct (execute_orders w1 rest prices) as [[w2 fs]|e] eqn:E2; cbn [rbind]; [|discriminate].
      intros [= <- <-].
      destruct (execute_order_frame _ _ _ _ _ E1) as (_ & Hh1 & Hf1).
      destruct (IH _ _ _ E2) as (Hh2 & Hl2 & Hf2).
      assert (Hf2' : Forall (fun f => exists o', In o' (o :: rest) /\
            f_ticker f = o_ticker o' /\ f_side f = o_side o' /\ f_qty f = o_qty o') fs).
      { refine (List.Forall_impl _ _ Hf2). intros f (o' & Hin & H). exists o'. split; [right; exact Hin|exact H]. }
      destruct fo as [f|]; cbn [length].
      * rewrite Hh2, Hh1, <- app_assoc. split; [reflexivity|]. split; [lia|].
        constructor; [|exact Hf2']. exists o. split; [left; reflexivity|exact Hf1].
      * rewrite Hh2, Hh1, app_nil_r. split; [reflexivity|]. split; [lia|exact Hf2'].
    + intros E. destruct (IH _ _ _ E) as (Hh & Hl & Hf). split; [exact Hh|]. split; [cbn; lia|].
      refine (List.Forall_impl _ _ Hf). intros f (o' & Hin & H). exists o'. split; [right; exact Hin|exact H].
Qed.

Lemma execute_orders_fills_witness :
  exists w' fills,
  execute_orders (new_broker 100000 10 10 (25 # 100))
    [mkOrder "AAPL" BUY 10; mkOrder "MSFT" BUY 5; mkOrder "AAPL" SELL 50]
    [("AAPL", 100)] = Ok (w', fills) /\
  fill_history (broker w') = [] ++ fills /\ (length fills <= 3)%nat /\
  Forall (fun f => exists o, In o [mkOrder "AAPL" BUY 10; mkOrder "MSFT" BUY 5; mkOrder "AAPL" SELL 50] /\
            f_ticker f = o_ticker o /\ f_side f = o_side o /\ f_qty f = o_qty o) fills.
Proof.
  destruct (execute_orders (new_broker 100000 10 10 (25 # 100))
    [mkOrder "AAPL" BUY 10; mkOrder "MSFT" BUY 5; mkOrder "AAPL" SELL 50]
    [("AAPL", 100)]) as [[w' fills]|e] eqn:E; [|vm_compute in E; discriminate E].
  exists w', fills. split; [reflexivity|].
  exact (execute_orders_fills _ _ _ w' fills E).
Defined.

(** X8: with fill rates within the 0.5% validation buffer, a batch of
    [execute_orders] keeps the ledger invariant ([cash >= 0], positive
    quantities, distinct [Position] objects) and distinct dict keys, for
    every list of orders and prices. *)
Theorem execute_orders_keeps_ledger_ok w orders prices w' fills :
  costs_within_buffer (fill_engine (broker w)) -> ledger_ok w ->
  List.NoDup (map fst (positions (broker w))) ->
  execute_orders w orders prices = Ok (w', fills) ->
  ledger_ok w' /\ List.NoDup (map fst (positions (broker w'))).
Proof.
  revert w w' fills. induction orders as [|o rest IH]; intros w w' fills Hc Hok Hnd; cbn [execute_orders].
  - intros [= <- <-]. auto.
  - destruct (dict_get prices (upper (o_ticker o))) as [price|]; [|apply IH; assumption].
    destruct (execute_order w o price) as [[w1 fo]|e] eqn:E1; cbn [rbind]; [|discriminate].
    destruct (execute_orders w1 rest prices) as [[w2 fs]|e] eqn:E2; cbn [rbind]; [|discriminate].
    intros [= <- <-].
    destruct (execute_order_frame _ _ _ _ _ E1) as (Hfe & _).
    apply (IH w1 w2 fs); [rewrite Hfe; exact Hc| |exact (execute_order_keys_nodup _ _ _ _ _ Hnd E1)|exact E2].
    exact (execute_order_ledger_ok_step _ _ _ _ _ Hc Hok E1).
Qed.

Lemma execute_orders_keeps_ledger_ok_witness :
  exists w' fills,
  execute_orders (new_broker 100000 10 10 (25 # 100))
    [mkOrder "AAPL" BUY 10; mkOrder "AAPL" SELL 4] [("AAPL", 100)] = Ok (w', fills) /\
  ledger_ok w' /\ List.NoDup (map fst (positions (broker w'))).
Proof.
  destruct (execute_orders (new_broker 100000 10 10 (25 # 100))
    [mkOrder "AAPL" BUY 10; mkOrder "AAPL" SELL 4] [("AAPL", 100)]) as [[w' fills]|e] eqn:E;
    [|vm_compute in E; discriminate E].
  exists w', fills. split; [reflexivity|].
  refine (execute_orders_keeps_ledger_ok _ _ _ w' fills _ _ _ E).
  - repeat split; apply Qle_bool_iff; reflexivity.
  - repeat split; cbn; [apply Qle_bool_iff; reflexivity|constructor|tauto].
  - constructor.
Defined.

(** The effect of one entry of [update_prices]. *)
Lemma update_price_step w t' pr t :
  ledger_ok w ->
  broker (update_price w (t', pr)) = broker w /\ ledger_ok (update_price w (t', pr)) /\
  get_position (update_price w (t', pr)) t =
    if String.eqb (upper t') (upper t)
    then option_map (fun pos => mkPosition (p_ticker pos) (p_qty pos) (p_avg_cost pos) pr)
           (get_position w t)
    else get_position w t.
Proof.
  intros (Hc & Hnd & Hpos). unfold update_price, get_position, get_position_loc.
  destruct (dict_get (positions (broker w)) (upper t')) as [l'|] eqn:Eg'.
  - destruct (heap w !! l') as [pos'|] eqn:Eh'.
    + unfold ledger_ok. cbn [broker heap]. split; [reflexivity|]. split.
      * split; [exact Hc|]. split; [exact Hnd|]. intros t2 l2 Hin.
        destruct (decide (l2 = l')) as [->|Hne].
        -- rewrite lookup_insert_eq. eexists; split; [reflexivity|]. cbn [p_qty].
           destruct (Hpos _ _ Hin) as (p0 & Hp0 & Hq0). rewrite Eh' in Hp0. injection Hp0 as <-. exact Hq0.
        -- rewrite lookup_insert_ne by congruence. exact (Hpos _ _ Hin).
      * destruct (String.eqb_spec (upper t') (upper t)) as [<-|Hne].
        -- rewrite Eg', lookup_insert_eq, Eh'. reflexivity.
        -- destruct (dict_get (positions (broker w)) (upper t)) as [l|] eqn:Eg; [|reflexivity].
           rewrite lookup_insert_ne; [reflexivity|]. intros ->.
           apply Hne. exact (NoDup_snd_unique _ _ _ _ Hnd (dict_get_In _ _ _ Eg') (dict_get_In _ _ _ Eg)).
    + split; [reflexivity|]. split; [split; [exact Hc|split; [exact Hnd|exact Hpos]]|].
      destruct (String.eqb_spec (upper t') (upper t)) as [<-|Hne]; [|reflexivity].
      rewrite Eg', Eh'. reflexivity.
  - split; [reflexivity|]. split; [split; [exact Hc|split; [exact Hnd|exact Hpos]]|].
    destruct (String.eqb_spec (upper t') (upper t)) as [<-|Hne]; [|reflexivity].
    rewrite Eg'. reflexivity.
Qed.

(** X9: [update_prices] only re-marks positions: the ledger (cash,
    positions dict, realized P&L, fill history) is untouched, the ledger
    invariant is kept, and each held position keeps its ticker, quantity
    and [avg_cost] and takes the last price given for its upper-cased
    ticker, if any. *)
Theorem update_prices_marks w prices t :
  ledger_ok w ->
  broker (update_prices w prices) = broker w /\ ledger_ok (update_prices w prices) /\
  get_position (update_prices w prices) t =
    option_map (fun pos => mkPosition (p_ticker pos) (p_qty pos) (p_avg_cost pos)
                  match fold_left (fun acc tp => if String.eqb (upper (fst tp)) (upper t)
                                                 then Some (snd tp) else acc) prices None with
                  | Some pr => pr
                  | None => p_current_price pos
                  end)
      (get_position w t).
Proof.
  intros Hok. unfold update_prices. induction prices as [|[t' pr] prices IH] using rev_ind.
  - cbn [fold_left]. split; [reflexivity|]. split; [exact Hok|].
    destruct (get_position w t) as [[]|]; reflexivity.
  - rewrite !fold_left_app. cbn [fold_left fst snd].
    destruct IH as (Hb & Hok1 & Hg).
    destruct (update_price_step (fold_left update_price prices w) t' pr t Hok1) as (Hb' & Hok' & Hg').
    split; [rewrite Hb', Hb; reflexivity|]. split; [exact Hok'|].
    rewrite Hg', Hg. destruct (String.eqb (upper t') (upper t)); [|reflexivity].
    destruct (get_position w t); reflexivity.
Qed.

Lemma update_prices_marks_witness :
  ledger_ok (mkWorld (<[1%positive := mkPosition "AAPL" 10 90 100]> ∅)
       (mkSimBroker 1000 2000 [("AAPL", 1%positive)] 0 1 (mkFillEngine 10 10) [])) /\
  get_position (update_prices
    (mkWorld (<[1%positive := mkPosition "AAPL" 10 90 100]> ∅)
       (mkSimBroker 1000 2000 [("AAPL", 1%positive)] 0 1 (mkFillEngine 10 10) []))
    [("aapl", 120); ("MSFT", 50); ("AAPL", 130)]) "Aapl"
  = Some (mkPosition "AAPL" 10 90 130).
Proof.
  assert (Hok : ledger_ok
    (mkWorld (<[1%positive := mkPosition "AAPL" 10 90 100]> ∅)
       (mkSimBroker 1000 2000 [("AAPL", 1%positive)] 0 1 (mkFillEngine 10 10) []))).
  { split; [apply Qle_bool_iff; reflexivity|]. split; [repeat constructor; simpl; tauto|].
    intros t l [Heq|[]]. injection Heq as <- <-. eexists. split; [reflexivity|]. cbn. lia. }
  split; [exact Hok|].
  destruct (update_prices_marks _ [("aapl", 120); ("MSFT", 50); ("AAPL", 130)] "Aapl" Hok)
    as (_ & _ & ->).
  vm_compute. reflexivity.
Defined.

(* ------------------------------------------------------------------ *)
(** ** [get_state_dict] / [load_state_dict] *)

Lemma notin_dict_get_none {V} (d : list (string * V)) k : ~ In k (map fst d) -> dict_get d k = None.
Proof.
  induction d as [|[k' v] d IH]; cbn [dict_get map fst In]; intros Hn; [reflexivity|].
  destruct (String.eqb_spec k' k) as [->|Hne]; [tauto|]. apply IH. tauto.
Qed.

Lemma dict_get_app_ne {V} (d : list (string * V)) k k2 v2 :
  k2 <> k -> dict_get (d ++ [(k2, v2)]) k = dict_get d k.
Proof.
  intros Hne. induction d as [|[k' v'] d IH]; cbn [dict_get app].
  - destruct (String.eqb_spec k2 k); [congruence|reflexivity].
  - destruct (String.eqb k' k); [reflexivity|exact IH].
Qed.

Lemma dump_positions_ok h ps :
  (forall t l, In (t, l) ps -> exists p, h !! l = Some p) ->
  exists items, dump_positions h ps = Ok items /\ map fst items = map fst ps /\
    (forall k, dict_get items k = match dict_get ps k with Some l => h !! l | None => None end) /\
    (forall t p, In (t, p) items -> exists l, In (t, l) ps /\ h !! l = Some p).
Proof.
  induction ps as [|[t l] ps IH]; intros Hps.
  - exists []. split; [reflexivity|]. split; [reflexivity|]. split; [reflexivity|]. cbn; tauto.
  - destruct (Hps t l (or_introl eq_refl)) as (p & Hp).
    destruct IH as (items & Hd & Hf & Hg & Hin).
    { intros t2 l2 H. apply (Hps t2 l2). right. exact H. }
    exists ((t, p) :: items). cbn [dump_positions]. rewrite Hp, Hd. cbn [rbind].
    split; [reflexivity|]. split; [cbn [map fst]; rewrite Hf; reflexivity|]. split.
    + intros k. cbn [dict_get]. destruct (String.eqb t k); [exact (eq_sym Hp)|apply Hg].
    + intros t2 p2 [Heq|H].
      * injection Heq as <- <-. exists l. split; [left; reflexivity|exact Hp].
      * destruct (Hin _ _ H) as (l2 & H1 & H2). exists l2. split; [right; exact H1|exact H2].
Qed.

Lemma load_positions_ok h ps items :
  (forall t l, In (t, l) ps -> exists p, h !! l = Some p) ->
  (forall t p, In (t, p) items -> position_valid p = true) ->
  List.NoDup (map fst items) ->
  (forall t, In t (map fst items) -> ~ In t (map fst ps)) ->
  exists h' ps', load_positions h ps items = Ok (h', ps') /\
    map fst ps' = map fst ps ++ map fst items /\
    (forall t l, In (t, l) ps' -> exists p, h' !! l = Some p) /\
    forall k, match dict_get ps' k with Some l => h' !! l | None => None end =
              match dict_get items k with
              | Some p => Some p
              | None => match dict_get ps k with Some l => h !! l | None => None end
              end.
Proof.
  revert h ps. induction items as [|[t pd] rest IH]; intros h ps Hps Hval Hnd Hdis.
  - exists h, ps. split; [reflexivity|]. rewrite app_nil_r. split; [reflexivity|].
    split; [exact Hps|]. intros k. reflexivity.
  - cbn [map fst] in Hnd, Hdis. apply List.NoDup_cons_iff in Hnd as [Ht Hnd].
    cbn [load_positions]. rewrite (Hval t pd (or_introl eq_refl)). cbn [negb].
    set (l := fresh (dom h)).
    assert (Hfresh : forall t2 l2, In (t2, l2) ps -> l2 <> l).
    { intros t2 l2 Hin ->. destruct (Hps _ _ Hin) as (p0 & Hp0).
      apply (is_fresh (dom h)). apply elem_of_dom. exists p0. exact Hp0. }
    assert (Hnot : dict_get ps t = None) by (apply notin_dict_get_none, Hdis; left; reflexivity).
    assert (Eset : dict_set ps t l = ps ++ [(t, l)]) by (unfold dict_set, dict_mem; rewrite Hnot; reflexivity).
    rewrite Eset.
    destruct (IH (<[l := pd]> h) (ps ++ [(t, l)])) as (h' & ps' & Hl & Hf & Hps' & Hg).
    + intros t2 l2 Hin. apply in_app_iff in Hin as [Hin|[Heq|[]]].
      * destruct (Hps _ _ Hin) as (p0 & Hp0). exists p0.
        rewrite lookup_insert_ne by (intros Heq; exact (Hfresh _ _ Hin (eq_sym Heq))). exact Hp0.
      * injection Heq as <- <-. exists pd. apply lookup_insert_eq.
    + intros t2 p2 Hin. apply (Hval t2 p2). right. exact Hin.
    + exact Hnd.
    + intros t2 Hin. rewrite map_app. cbn [map fst]. rewrite in_app_iff. intros [H|[H|[]]].
      * exact (Hdis t2 (or_intror Hin) H).
      * subst t2. exact (Ht Hin).
    + exists h', ps'. split; [exact Hl|]. split.
      { rewrite Hf, map_app, <- app_assoc. reflexivity. }
      split; [exact Hps'|]. intros k. rewrite Hg. cbn [dict_get].
      destruct (String.eqb_spec t k) as [<-|Hne].
      * rewrite (notin_dict_get_none _ _ Ht), (dict_get_app_new _ _ _ Hnot). apply lookup_insert_eq.
      * destruct (dict_get rest k); [reflexivity|].
        rewrite (dict_get_app_ne _ _ _ _ Hne).
        destruct (dict_get ps k) as [l2|] eqn:Eg; [|reflexivity].
        apply lookup_insert_ne. intros Heq. exact (Hfresh _ _ (dict_get_In _ _ _ Eg) (eq_sym Heq)).
Qed.

(** X10: [get_state_dict] followed by [load_state_dict] (into any broker)
    restores the ledger: when the positions are valid [Position] values
    under distinct keys, the dump succeeds, the load succeeds, and the
    loaded broker has the same cash, realized P&L, tickers in the same
    order and, for every ticker, an equal position (as a new object); the
    fill history of the target broker is kept as it was. *)
Theorem state_dict_round_trip w w0 :
  List.NoDup (map fst (positions (broker w))) ->
  (forall t l, In (t, l) (positions (broker w)) ->
     exists p, heap w !! l = Some p /\ position_valid p = true) ->
  exists sd w1, get_state_dict w = Ok sd /\ load_state_dict w0 sd = Ok w1 /\
    cash (broker w1) = cash (broker w) /\ realized_pnl (broker w1) = realized_pnl (broker w) /\
    map fst (positions (broker w1)) = map fst (positions (broker w)) /\
    fill_history (broker w1) = fill_history (broker w0) /\
    forall t, get_position w1 t = get_position w t.
Proof.
  intros Hnd Hv.
  destruct (dump_positions_ok (heap w) (positions (broker w))) as (items & Hd & Hf & Hg & Hin).
  { intros t l H. destruct (Hv t l H) as (p & Hp & _). exists p. exact Hp. }
  destruct (load_positions_ok (heap w0) [] items) as (h' & ps' & Hl & Hf' & _ & Hg').
  - cbn; tauto.
  - intros t p H. destruct (Hin t p H) as (l & H1 & H2). destruct (Hv t l H1) as (p' & Hp' & Hval).
    rewrite H2 in Hp'. injection Hp' as <-. exact Hval.
  - rewrite Hf. exact Hnd.
  - cbn; tauto.
  - exists (mkStateDict (Some (cash (broker w))) (Some items) (Some (realized_pnl (broker w)))),
      (mkWorld h' (with_ledger (broker w0) (cash (broker w)) ps' (realized_pnl (broker w)))).
    split; [unfold get_state_dict; rewrite Hd; reflexivity|].
    split; [unfold load_state_dict; cbn [sd_cash sd_positions sd_realized_pnl]; rewrite Hl; reflexivity|].
    cbn [broker with_ledger cash realized_pnl positions fill_history].
    split; [reflexivity|]. split; [reflexivity|]. split; [rewrite Hf', Hf; reflexivity|].
    split; [reflexivity|].
    intros t. unfold get_position, get_position_loc. cbn [broker heap with_ledger positions].
    rewrite Hg', Hg. destruct (dict_get (positions (broker w)) (upper t)) as [l|]; [|reflexivity].
    destruct (heap w !! l); reflexivity.
Qed.

Lemma state_dict_round_trip_witness :
  exists sd w1,
  get_state_dict (mkWorld (<[1%positive := mkPosition "AAPL" 10 90 100]>
                             (<[2%positive := mkPosition "MSFT" 3 200 210]> ∅))
       (mkSimBroker 1000 2000 [("AAPL", 1%positive); ("MSFT", 2%positive)] 5 1 (mkFillEngine 10 10) []))
    = Ok sd /\
  load_state_dict (new_broker 50000 0 0 1) sd = Ok w1 /\
  cash (broker w1) = 1000 /\ realized_pnl (broker w1) = 5 /\
  map fst (positions (broker w1)) = ["AAPL"; "MSFT"]%string /\
  fill_history (broker w1) = [] /\
  forall t, get_position w1 t =
    get_position (mkWorld (<[1%positive := mkPosition "AAPL" 10 90 100]>
                             (<[2%positive := mkPosition "MSFT" 3 200 210]> ∅))
       (mkSimBroker 1000 2000 [("AAPL", 1%positive); ("MSFT", 2%positive)] 5 1 (mkFillEngine 10 10) [])) t.
Proof.
  refine (state_dict_round_trip _ (new_broker 50000 0 0 1) _ _).
  - repeat constructor; cbn; intuition congruence.
  - intros t l [Heq|[Heq|[]]]; injection Heq as <- <-; eexists; split; reflexivity.
Defined.

(** X11: [load_state_dict] rejects a state dict holding a position that
    fails the [Position] field constraints ([qty >= 0], [avg_cost >= 0],
    [current_price >= 0]), whatever the other entries. *)
Theorem load_state_dict_rejects_invalid w c r items :
  (exists t p, In (t, p) items /\ position_valid p = false) ->
  load_state_dict w (mkStateDict c (Some items) r) = Raise "ValidationError: Position".
Proof.
  intros Hex. unfold load_state_dict. cbn [sd_cash sd_positions sd_realized_pnl].
  enough (forall h ps, load_positions h ps items = Raise "ValidationError: Position") as ->
    by reflexivity.
  induction items as [|[t pd] rest IH]; intros h ps.
  - destruct Hex as (t & p & [] & _).
  - cbn [load_positions]. destruct (position_valid pd) eqn:Ev; cbn [negb]; [|reflexivity].
    apply IH. destruct Hex as (t2 & p2 & [Heq|Hin] & Hp2).
    + injection Heq as <- <-. congruence.
    + exists t2, p2. split; assumption.
Qed.

Lemma load_state_dict_rejects_invalid_witness :
  load_state_dict (new_broker 50000 0 0 1)
    (mkStateDict (Some 10) (Some [("AAPL", mkPosition "AAPL" 1 5 5); ("MSFT", mkPosition "MSFT" 2 (-1) 5)]) None)
  = Raise "ValidationError: Position".
Proof.
  apply load_state_dict_rejects_invalid.
  exists "MSFT"%string, (mkPosition "MSFT" 2 (-1) 5). split; [right; left; reflexivity|reflexivity].
Defined.

(** X12: [Snapshot.unrealized_pnl] is [positions_value] minus the cost basis
    [sum of qty * avg_cost] of the same positions (the [qty == 0] guard of
    [Position.unrealized_pnl] agrees with the formula). *)
Theorem snapshot_unrealized_pnl_decomp h s :
  snapshot_unrealized_pnl h s ==
  positions_value h s -
  fold_right (fun l acc => match h !! l with
                           | Some p => inject_Z (p_qty p) * p_avg_cost p
                           | None => 0
                           end + acc) 0 (s_positions s).
Proof.
  unfold snapshot_unrealized_pnl, positions_value.
  induction (s_positions s) as [|l ls IH]; cbn [fold_right]; [ring|].
  rewrite IH. unfold position_market_value.
  destruct (h !! l) as [p|]; [|ring].
  unfold unrealized_pnl, market_value.
  destruct (Z.eqb_spec (p_qty p) 0) as [->|_]; [|ring].
  change (inject_Z 0) with 0. ring.
Qed.

(* ================================================================== *)
(** * Further properties: storage/sqlite_store.py *)

Lemma find_map_keys (g : string * Z * Z -> string * Z * Z) rows p d :
  (forall row, counter_key_eqb p d (g row) = counter_key_eqb p d row) ->
  find (counter_key_eqb p d) (map g rows) = option_map g (find (counter_key_eqb p d) rows).
Proof.
  intros Hg. induction rows as [|row rows IH]; cbn [map find]; [reflexivity|].
  rewrite Hg. destruct (counter_key_eqb p d row); [reflexivity|exact IH].
Qed.

Lemma find_app_l {A} (f : A -> bool) l1 l2 :
  find f (l1 ++ l2) = match find f l1 with Some x => Some x | None => find f l2 end.
Proof.
  induction l1 as [|a l1 IH]; cbn [app find]; [reflexivity|]. destruct (f a); [reflexivity|exact IH].
Qed.

Lemma find_none_existsb {A} (f : A -> bool) l : find f l = None -> existsb f l = false.
Proof.
  induction l as [|a l IH]; cbn [find existsb]; [reflexivity|]. destruct (f a); [discriminate|exact IH].
Qed.

Lemma get_increment_call_count st p d n p' d' :
  get_daily_call_count (increment_call_count st p d n) p' d' =
  if String.eqb p p' && Z.eqb d d'
  then (get_daily_call_count st p' d' + n)%Z
  else get_daily_call_count st p' d'.
Proof.
  unfold get_daily_call_count, increment_call_count. cbn [call_counters].
  destruct (existsb (counter_key_eqb p d) (call_counters st)) eqn:Ex.
  - rewrite find_map_keys.
    2:{ intros [[a b] c]. unfold counter_key_eqb. destruct (String.eqb a p && Z.eqb b d); reflexivity. }
    destruct (find (counter_key_eqb p' d') (call_counters st)) as [[[a b] c]|] eqn:Ef.
    + apply find_some in Ef as [_ Hk]. unfold counter_key_eqb in Hk |- *.
      apply andb_prop in Hk as [Ha Hb]. apply String.eqb_eq in Ha. apply Z.eqb_eq in Hb. subst a b.
      cbn [option_map]. rewrite (String.eqb_sym p' p), (Z.eqb_sym d' d).
      destruct (String.eqb p p' && Z.eqb d d'); reflexivity.
    + cbn [option_map].
      destruct (String.eqb_spec p p') as [<-|], (Z.eqb_spec d d') as [<-|]; cbn [andb]; try reflexivity.
      apply find_none_existsb in Ef. congruence.
  - rewrite find_app_l.
    destruct (find (counter_key_eqb p' d') (call_counters st)) as [[[a b] c]|] eqn:Ef.
    + destruct (String.eqb_spec p p') as [<-|], (Z.eqb_spec d d') as [<-|]; cbn [andb]; try reflexivity.
      apply find_some in Ef as [Hin Hk].
      assert (existsb (counter_key_eqb p d) (call_counters st) = true)
        by (apply existsb_exists; exists (a, b, c); split; assumption).
      congruence.
    + cbn [find]. unfold counter_key_eqb.
      destruct (String.eqb p p' && Z.eqb d d'); reflexivity.
Qed.

(** X13: the call counter of the database as the budget check reads it:
    after [increment_call_count(provider, date, n)],
    [get_daily_call_count] grows by [n] for that (provider, date), whether
    the row existed or not, and is unchanged for every other key. *)
Theorem increment_then_get_call_count st p d n p' d' :
  get_daily_call_count (increment_call_count st p d n) p' d' =
  if String.eqb p p' && Z.eqb d d'
  then (get_daily_call_count st p' d' + n)%Z
  else get_daily_call_count st p' d'.
Proof. apply get_increment_call_count. Qed.

Lemma has_run_today_save_run_log st rl :
  has_run_today (save_run_log st rl) (rl_competitor_id rl) (rl_session_date rl) (rl_session_type rl) = true.
Proof.
  unfold has_run_today, save_run_log. cbn [run_logs]. rewrite existsb_app. cbn [existsb].
  rewrite !String.eqb_refl, Z.eqb_refl. cbn [andb orb]. apply orb_true_r.
Qed.

Lemma save_trades_frame comp_id fills st :
  call_counters (fold_left (fun s f => save_trade s comp_id f) fills st) = call_counters st /\
  run_logs (fold_left (fun s f => save_trade s comp_id f) fills st) = run_logs st.
Proof.
  revert st. induction fills as [|f fills IH]; intros st; cbn [fold_left]; [auto|].
  destruct (IH (save_trade st comp_id f)) as [-> ->]. auto.
Qed.

(* ================================================================== *)
(** * Further properties: arena/runner.py *)

Lemma parse_response_success_output {A} (decode : string -> option A) r :
  ar_success (parse_response decode r) = true -> exists x, ar_output (parse_response decode r) = Some x.
Proof.
  unfold parse_response. destruct (resp_success r); cbn [negb]; [|discriminate].
  destruct (decode (clean_json_string (resp_content r))) as [x|]; [|discriminate].
  intros _. exists x. reflexivity.
Qed.

Lemma retry_loop_len {A} a (decode : string -> option A) prompt llm k : forall calls,
  let '(r, calls1) := retry_loop a decode prompt llm k calls in
  (ar_success r = true -> exists x, ar_output r = Some x) /\
  exists new, calls1 = calls ++ new /\ (1 <= length new <= S k)%nat.
Proof.
  induction k as [|k IH]; intros calls; cbn [retry_loop]; unfold agent_invoke.
  - destruct (ar_success (parse_response decode (llm (length calls)))) eqn:E; rewrite ?E;
      (split; [intros Hs; apply parse_response_success_output; congruence|eexists; split; [reflexivity|cbn; lia]]).
  - destruct (ar_success (parse_response decode (llm (length calls)))) eqn:E; rewrite ?E.
    + split; [intros Hs; apply parse_response_success_output; congruence|eexists; split; [reflexivity|cbn; lia]].
    + specialize (IH (calls ++ [mkLLMCall (agent_call_type a) false
                          (ar_error (parse_response decode (llm (length calls))))
                          (ar_raw_response (parse_response decode (llm (length calls)))) prompt])).
      destruct (retry_loop a decode prompt llm k _) as [r calls1].
      destruct IH as (Ho & new & -> & Hl). split; [exact Ho|].
      eexists. split; [rewrite <- app_assoc; reflexivity|]. cbn [app length]. lia.
Qed.

(** One agent stage issues between one and four LLM requests, exactly four
    when it yields nothing (three failed attempts and the repair). *)
Lemma agent_stage_len {A} a (decode : string -> option A) prompt llm calls :
  let '(out, errs, calls') := agent_stage a decode prompt llm calls in
  exists new, calls' = calls ++ new /\ (1 <= length new <= 4)%nat /\ (out = None -> length new = 4%nat).
Proof.
  unfold agent_stage, invoke_with_retry.
  pose proof (retry_loop_shape a decode prompt llm max_retries calls) as Hs.
  pose proof (retry_loop_len a decode prompt llm max_retries calls) as Hl.
  destruct (retry_loop a decode prompt llm max_retries calls) as [r calls1].
  destruct Hs as (_ & _ & Hlen). destruct Hl as (Ho & new & -> & Hn). unfold max_retries in *.
  destruct (ar_success r) eqn:Er.
  - destruct (Ho eq_refl) as (x & ->). exists new. split; [reflexivity|]. split; [lia|discriminate].
  - unfold repair_json_parse. rewrite length_app in Hlen. specialize (Hlen eq_refl).
    destruct (resp_success _); cbn; eexists; (split; [rewrite <- app_assoc; reflexivity|]);
      rewrite length_app; cbn [length]; lia.
Qed.

Lemma update_prices_broker w prices : broker (update_prices w prices) = broker w.
Proof.
  unfold update_prices. revert w. induction prices as [|[t pr] prices IH]; intros w; cbn [fold_left];
    [reflexivity|].
  rewrite IH. unfold update_price.
  destruct (dict_get (positions (broker w)) (upper t)) as [l|]; [|reflexivity].
  destruct (heap w !! l); reflexivity.
Qed.

(** A completed run that is not a dry run: what it writes to the database. *)
Lemma run_competitor_ran_inv {P T} cfg (codec : Codec P T) comp stype d prices run_id ce llm il st w
    rid sp tp fills errs eb ea st' w' :
  run_competitor cfg codec comp stype d prices false run_id ce llm il st w
    = (Ok (Ran rid sp tp fills errs eb ea), st', w') ->
  exists st2 calls h snap,
    call_counters st2 = call_counters (il st) /\ run_logs st2 = run_logs (il st) /\
    (2 <= length calls <= 8)%nat /\
    st' = save_run_log
            (save_snapshot (increment_call_count st2 (comp_provider comp) d (Z.of_nat (length calls)))
               (comp_id comp) h snap)
            (mkRunLog run_id (comp_id comp) d stype calls errs fills).
Proof.
  intros H. unfold run_competitor in H. cbn [negb andb] in H.
  destruct (has_run_today st (comp_id comp) d stype); [discriminate H|].
  destruct (call_limit cfg (comp_provider comp) <? get_daily_call_count st (comp_provider comp) d + 2)%Z;
    [discriminate H|].
  destruct (get_snapshot (update_prices w prices)) as [sb|e]; [|discriminate H].
  destruct ce as [e|]; [discriminate H|].
  pose proof (agent_stage_len Strategist (decode_proposal codec) (strategist_prompt codec) llm []) as Hs1.
  destruct (agent_stage Strategist (decode_proposal codec) (strategist_prompt codec) llm []) as [[sp0 errs1] calls1].
  destruct Hs1 as (new1 & -> & Hl1 & Hn1).
  cbv beta iota zeta in H.
  lazymatch type of H with
  | context [match ?s2 with Ok _ => _ | Raise _ => _ end] =>
      assert (Hs2 : forall tp0 errs2 calls, s2 = Ok (tp0, errs2, calls) -> (2 <= length calls <= 8)%nat);
      [|destruct s2 as [[[tp0 errs2] calls]|e] eqn:E2; [|discriminate H];
        specialize (Hs2 _ _ _ eq_refl)]
  end.
  { intros tp0 errs2 calls. destruct sp0 as [x|].
    - destruct (_ <? _)%Z; [discriminate|].
      pose proof (agent_stage_len RiskGuard (decode_plan codec) (riskguard_prompt codec x) llm ([] ++ new1)) as Hs2.
      destruct (agent_stage RiskGuard (decode_plan codec) (riskguard_prompt codec x) llm ([] ++ new1)) as [[tp1 errs3] calls2].
      destruct Hs2 as (new2 & -> & Hl2 & _). intros [= _ _ <-].
      rewrite !length_app. cbn [length]. lia.
    - intros [= _ _ <-]. cbn [app]. specialize (Hn1 eq_refl). lia. }
  lazymatch type of H with
  | context [match ?c with Ok _ => _ | Raise _ => _ end] =>
      destruct c as [[vo errs3]|e]; [|discriminate H]
  end.
  lazymatch type of H with
  | context [match ?ex with Ok _ => _ | Raise _ => _ end] =>
      assert (Hex : forall w2 fs st2, ex = Ok (w2, fs, st2) ->
                call_counters st2 = call_counters (il st) /\ run_logs st2 = run_logs (il st));
      [|destruct ex as [[[w2 fs] st2]|e] eqn:E3; [|discriminate H];
        specialize (Hex _ _ _ eq_refl)]
  end.
  { intros w2 fs st2. destruct vo as [|o vo]; cbn [andb negb].
    - intros [= _ _ <-]. auto.
    - destruct (execute_orders _ _ prices) as [[w4 fs4]|e]; cbn [rbind]; [|discriminate].
      intros [= _ _ <-]. apply save_trades_frame. }
  destruct (get_snapshot (update_prices w2 prices)) as [sa|e]; [|discriminate H].
  cbn [negb] in H. injection H as <- <- <- <- <- _ _ <- _.
  destruct Hex as [Hc Hr].
  exists st2, calls, (heap (update_prices w2 prices)), sa. auto.
Qed.

(** X14: a completed run that is not a dry run records its run log, so a
    second non-dry run of the same competitor for the same date and
    session type is skipped with reason "already_ran" and changes
    nothing, whatever its prices, LLM answers or client. *)
Theorem run_competitor_ran_then_skips {P T} cfg (codec : Codec P T) comp stype d prices run_id ce llm il
    st w rid sp tp fills errs eb ea st' w' prices2 run_id2 ce2 llm2 il2 :
  run_competitor cfg codec comp stype d prices false run_id ce llm il st w
    = (Ok (Ran rid sp tp fills errs eb ea), st', w') ->
  run_competitor cfg codec comp stype d prices2 false run_id2 ce2 llm2 il2 st' w'
    = (Ok (Skipped "already_ran"), st', w').
Proof.
  intros H. apply run_competitor_ran_inv in H as (st2 & calls & h & snap & _ & _ & _ & ->).
  unfold run_competitor. rewrite (has_run_today_save_run_log _
    (mkRunLog run_id (comp_id comp) d stype calls errs fills)). reflexivity.
Qed.

Lemma run_competitor_ran_then_skips_witness :
  exists rid sp tp fills errs eb ea st' w',
  run_competitor (mkArenaConfig [mkCompetitorConfig "a" "openai"] [])
    (mkCodec (fun _ => Some tt) (fun _ => Some [mkOrder "AAPL" BUY 10]) (fun x => x) "strategist prompt" (fun _ => "risk guard prompt"))
    (mkCompetitorConfig "a" "openai") "OPEN" 20000 [("AAPL"%string, 100)] false "run1" None
    (fun _ => mkLLMResponse true "{}" None) (fun s => s) empty_storage (new_broker 100000 10 10 (1#4))
  = (Ok (Ran rid sp tp fills errs eb ea), st', w') /\
  run_competitor (mkArenaConfig [mkCompetitorConfig "a" "openai"] [])
    (mkCodec (fun _ => Some tt) (fun _ => Some [mkOrder "AAPL" BUY 10]) (fun x => x) "strategist prompt" (fun _ => "risk guard prompt"))
    (mkCompetitorConfig "a" "openai") "OPEN" 20000 [("AAPL"%string, 120)] false "run2" None
    (fun _ => mkLLMResponse true "{}" None) (fun s => s) st' w'
  = (Ok (Skipped "already_ran"), st', w').
Proof.
  destruct (run_competitor (mkArenaConfig [mkCompetitorConfig "a" "openai"] [])
    (mkCodec (fun _ => Some tt) (fun _ => Some [mkOrder "AAPL" BUY 10]) (fun x => x) "strategist prompt" (fun _ => "risk guard prompt"))
    (mkCompetitorConfig "a" "openai") "OPEN" 20000 [("AAPL"%string, 100)] false "run1" None
    (fun _ => mkLLMResponse true "{}" None) (fun s => s) empty_storage (new_broker 100000 10 10 (1#4)))
    as [[[o|e] st'] w'] eqn:E; [|vm_compute in E; discriminate E].
  destruct o as [r|m|rid sp tp fills errs eb ea]; [vm_compute in E; discriminate E|vm_compute in E; discriminate E|].
  exists rid, sp, tp, fills, errs, eb, ea, st', w'. split; [reflexivity|].
  exact (run_competitor_ran_then_skips _ _ _ _ _ _ _ _ _ _ _ _ _ _ _ _ _ _ _ _ _ _ _ _ _ _ E).
Defined.

(** X15: a completed non-dry run makes between 2 and 8 LLM requests (up to
    three attempts and one repair per agent), all logged in its run log,
    and adds exactly their number to the provider's daily call counter,
    although the budget check before the run reserves only 2. *)
Theorem run_competitor_counts_calls {P T} cfg (codec : Codec P T) comp stype d prices run_id ce llm il
    st w rid sp tp fills errs eb ea st' w' :
  run_competitor cfg codec comp stype d prices false run_id ce llm il st w
    = (Ok (Ran rid sp tp fills errs eb ea), st', w') ->
  exists rl, In rl (run_logs st') /\
    rl_run_id rl = run_id /\ rl_competitor_id rl = comp_id comp /\ rl_session_date rl = d /\
    rl_session_type rl = stype /\ rl_errors rl = errs /\ rl_fills rl = fills /\
    (2 <= length (rl_llm_calls rl) <= 8)%nat /\
    get_daily_call_count st' (comp_provider comp) d =
      (get_daily_call_count (il st) (comp_provider comp) d + Z.of_nat (length (rl_llm_calls rl)))%Z.
Proof.
  intros H. apply run_competitor_ran_inv in H as (st2 & calls & h & snap & Hc & _ & Hl & ->).
  exists (mkRunLog run_id (comp_id comp) d stype calls errs fills).
  split; [cbn [save_run_log run_logs]; apply in_or_app; right; left; reflexivity|].
  cbn [rl_run_id rl_competitor_id rl_session_date rl_session_type rl_errors rl_fills rl_llm_calls].
  do 6 (split; [reflexivity|]). split; [exact Hl|].
  assert (Eg : forall s, get_daily_call_count s (comp_provider comp) d
                 = get_daily_call_count (mkStorage [] (call_counters s) [] []) (comp_provider comp) d)
    by reflexivity.
  rewrite Eg. cbn [save_run_log save_snapshot call_counters]. rewrite <- Eg.
  rewrite get_increment_call_count, String.eqb_refl, Z.eqb_refl. cbn [andb].
  rewrite (Eg st2), Hc, <- Eg. reflexivity.
Qed.

Lemma run_competitor_counts_calls_witness :
  exists rid sp tp fills errs eb ea st' w',
  run_competitor (mkArenaConfig [mkCompetitorConfig "a" "openai"] [])
    (mkCodec (fun _ => Some tt) (fun _ => Some [mkOrder "AAPL" BUY 10]) (fun x => x) "strategist prompt" (fun _ => "risk guard prompt"))
    (mkCompetitorConfig "a" "openai") "OPEN" 20000 [("AAPL"%string, 100)] false "run1" None
    (fun n => if (n <? 2)%nat then mkLLMResponse false "" (Some "timeout"%string)
              else mkLLMResponse true "{}" None)
    (fun s => s) empty_storage (new_broker 100000 10 10 (1#4))
  = (Ok (Ran rid sp tp fills errs eb ea), st', w') /\
  exists rl, In rl (run_logs st') /\
    rl_run_id rl = "run1"%string /\ rl_competitor_id rl = "a"%string /\ rl_session_date rl = 20000%Z /\
    rl_session_type rl = "OPEN"%string /\ rl_errors rl = errs /\ rl_fills rl = fills /\
    (2 <= length (rl_llm_calls rl) <= 8)%nat /\
    get_daily_call_count st' "openai" 20000 =
      (get_daily_call_count empty_storage "openai" 20000 + Z.of_nat (length (rl_llm_calls rl)))%Z.
Proof.
  destruct (run_competitor (mkArenaConfig [mkCompetitorConfig "a" "openai"] [])
    (mkCodec (fun _ => Some tt) (fun _ => Some [mkOrder "AAPL" BUY 10]) (fun x => x) "strategist prompt" (fun _ => "risk guard prompt"))
    (mkCompetitorConfig "a" "openai") "OPEN" 20000 [("AAPL"%string, 100)] false "run1" None
    (fun n => if (n <? 2)%nat then mkLLMResponse false "" (Some "timeout"%string)
              else mkLLMResponse true "{}" None)
    (fun s => s) empty_storage (new_broker 100000 10 10 (1#4)))
    as [[[o|e] st'] w'] eqn:E; [|vm_compute in E; discriminate E].
  destruct o as [r|m|rid sp tp fills errs eb ea]; [vm_compute in E; discriminate E|vm_compute in E; discriminate E|].
  exists rid, sp, tp, fills, errs, eb, ea, st', w'. split; [reflexivity|].
  exact (run_competitor_counts_calls _ _ _ _ _ _ _ _ _ _ _ _ _ _ _ _ _ _ _ _ _ E).
Defined.

(** X16: a dry run never writes to the database nor changes the ledger: it
    leaves the storage as the other writers leave it, the cash, positions
    dict, realized P&L and fill history as they were (only prices are
    re-marked), and when it completes it reports no fills; also when it
    raises. *)
Theorem run_competitor_dry_run_frame {P T} cfg (codec : Codec P T) comp stype d prices run_id ce llm il
    st w res st' w' :
  run_competitor cfg codec comp stype d prices true run_id ce llm il st w = (res, st', w') ->
  (st' = st \/ st' = il st) /\ broker w' = broker w /\
  forall rid sp tp fills errs eb ea, res = Ok (Ran rid sp tp fills errs eb ea) -> fills = [].
Proof.
  intros H. unfold run_competitor in H. cbn [negb andb] in H.
  destruct (call_limit cfg (comp_provider comp) <? get_daily_call_count st (comp_provider comp) d + 2)%Z.
  { injection H as <- <- <-. split; [left; reflexivity|]. split; [reflexivity|]. intros; discriminate. }
  pose proof (update_prices_broker w prices) as Hb1.
  destruct (get_snapshot (update_prices w prices)) as [sb|e].
  2:{ injection H as <- <- <-. split; [left; reflexivity|]. split; [exact Hb1|]. intros; discriminate. }
  destruct ce as [e|].
  { injection H as <- <- <-. split; [left; reflexivity|]. split; [exact Hb1|]. intros; discriminate. }
  destruct (agent_stage Strategist (decode_proposal codec) (strategist_prompt codec) llm []) as [[sp0 errs1] calls1].
  cbv beta iota zeta in H.
  lazymatch type of H with
  | context [match ?s2 with Ok _ => _ | Raise _ => _ end] =>
      destruct s2 as [[[tp0 errs2] calls]|e]
  end.
  2:{ injection H as <- <- <-. split; [right; reflexivity|]. split; [exact Hb1|]. intros; discriminate. }
  lazymatch type of H with
  | context [match ?c with Ok _ => _ | Raise _ => _ end] =>
      destruct c as [[vo errs3]|e]
  end.
  2:{ injection H as <- <- <-. split; [right; reflexivity|]. split; [exact Hb1|]. intros; discriminate. }
  rewrite andb_false_r in H.
  pose proof (update_prices_broker (update_prices w prices) prices) as Hb3.
  destruct (get_snapshot (update_prices (update_prices w prices) prices)) as [sa|e].
  - injection H as <- <- <-. split; [right; reflexivity|]. split; [rewrite Hb3; exact Hb1|].
    intros rid sp tp fills errs eb ea [= _ _ _ <- _ _ _]. reflexivity.
  - injection H as <- <- <-. split; [right; reflexivity|]. split; [rewrite Hb3; exact Hb1|].
    intros; discriminate.
Qed.

Lemma run_competitor_dry_run_frame_witness :
  exists res st' w',
  run_competitor (mkArenaConfig [mkCompetitorConfig "a" "openai"] [])
    (mkCodec (fun _ => Some tt) (fun _ => Some [mkOrder "AAPL" BUY 10]) (fun x => x) "strategist prompt" (fun _ => "risk guard prompt"))
    (mkCompetitorConfig "a" "openai") "OPEN" 20000 [("AAPL"%string, 100)] true "run1" None
    (fun _ => mkLLMResponse true "{}" None) (fun s => s) empty_storage (new_broker 100000 10 10 (1#4))
  = (res, st', w') /\
  (st' = empty_storage \/ st' = empty_storage) /\ broker w' = broker (new_broker 100000 10 10 (1#4)) /\
  forall rid sp tp fills errs eb ea, res = Ok (Ran rid sp tp fills errs eb ea) -> fills = [].
Proof.
  destruct (run_competitor (mkArenaConfig [mkCompetitorConfig "a" "openai"] [])
    (mkCodec (fun _ => Some tt) (fun _ => Some [mkOrder "AAPL" BUY 10]) (fun x => x) "strategist prompt" (fun _ => "risk guard prompt"))
    (mkCompetitorConfig "a" "openai") "OPEN" 20000 [("AAPL"%string, 100)] true "run1" None
    (fun _ => mkLLMResponse true "{}" None) (fun s => s) empty_storage (new_broker 100000 10 10 (1#4)))
    as [[res st'] w'] eqn:E.
  exists res, st', w'. split; [reflexivity|].
  exact (run_competitor_dry_run_frame _ _ _ _ _ _ _ _ _ _ _ _ _ _ _ E).
Defined.

(** X17: [_invoke_with_retry] stops at the first successful attempt: if
    attempts [0 .. j-1] fail and attempt [j <= 2] succeeds, it returns that
    attempt's result with exactly [j + 1] calls logged, all of the agent's
    call type. *)
Theorem invoke_with_retry_first_success {A} a (decode : string -> option A) prompt llm calls j :
  (j <= 2)%nat ->
  (forall i, (i < j)%nat -> ar_success (parse_response decode (llm (length calls + i)%nat)) = false) ->
  ar_success (parse_response decode (llm (length calls + j)%nat)) = true ->
  let '(r, calls1) := invoke_with_retry a decode prompt llm calls in
  r = parse_response decode (llm (length calls + j)%nat) /\
  exists new, calls1 = calls ++ new /\ length new = S j /\
    Forall (fun c => call_type c = agent_call_type a) new.
Proof.
  unfold invoke_with_retry, max_retries.
  generalize 2%nat as k. intros k. revert calls j.
  induction k as [|k IH]; intros calls j Hjk Hfail Hsucc; cbn [retry_loop]; unfold agent_invoke.
  - replace j with 0%nat in * by lia. rewrite Nat.add_0_r in Hsucc. rewrite Hsucc.
    rewrite Nat.add_0_r. split; [reflexivity|].
    eexists. split; [reflexivity|]. split; [reflexivity|]. repeat constructor.
  - destruct j as [|j].
    + rewrite Nat.add_0_r in Hsucc. rewrite Hsucc. rewrite Nat.add_0_r. split; [reflexivity|].
      eexists. split; [reflexivity|]. split; [reflexivity|]. repeat constructor.
    + pose proof (Hfail 0%nat ltac:(lia)) as H0. rewrite Nat.add_0_r in H0. rewrite H0.
      set (c := mkLLMCall (agent_call_type a) false (ar_error (parse_response decode (llm (length calls))))
                  (ar_raw_response (parse_response decode (llm (length calls)))) prompt).
      specialize (IH (calls ++ [c]) j ltac:(lia)).
      rewrite length_app in IH. cbn [length] in IH.
      destruct (retry_loop a decode prompt llm k (calls ++ [c])) as [r calls1].
      destruct IH as (Hr & new & Hc & Hl & Hf).
      * intros i Hi. replace (length calls + 1 + i)%nat with (length calls + S i)%nat by lia.
        apply Hfail. lia.
      * replace (length calls + 1 + j)%nat with (length calls + S j)%nat by lia. exact Hsucc.
      * split; [rewrite Hr; f_equal; f_equal; lia|].
        exists (c :: new). split; [rewrite Hc, <- app_assoc; reflexivity|].
        split; [cbn [length]; lia|]. constructor; [reflexivity|exact Hf].
Qed.

Lemma invoke_with_retry_first_success_witness :
  let llm := fun n => if (n <? 1)%nat then mkLLMResponse true "not json" None
                      else mkLLMResponse true "{}" None in
  let decode := fun s => if String.eqb s "{}" then Some tt else None in
  let '(r, calls1) := invoke_with_retry Strategist decode "strategist prompt" llm [] in
  r = parse_response decode (llm 1%nat) /\
  exists new, calls1 = [] ++ new /\ length new = 2%nat /\
    Forall (fun c => call_type c = agent_call_type Strategist) new.
Proof.
  intros llm decode.
  refine (invoke_with_retry_first_success Strategist decode "strategist prompt" llm [] 1 _ _ _).
  - lia.
  - intros i Hi. replace i with 0%nat by lia. vm_compute. reflexivity.
  - vm_compute. reflexivity.
Defined.

(* ================================================================== *)
(** * Further properties: arena/gate.py *)



(** X19: a session type other than the exact strings "OPEN" and "CLOSE"
    (e.g. "open") gets no time-window check on an equity market: on a
    trading day with session times, [should_run] answers only the
    already-ran check, at every instant of the day. *)
Theorem should_run_other_session_no_window cfg st adapter market stype now op cl :
  known_market_type (market_type market) = true ->
  String.eqb (market_type market) "crypto" = false ->
  is_trading_day adapter (day_of now) = true ->
  get_session_times adapter (day_of now) = Some (op, cl) ->
  String.eqb stype "OPEN" = false -> String.eqb stype "CLOSE" = false ->
  should_run cfg st adapter market stype now = Ok (check_already_ran st (competitors cfg) (day_of now) stype).
Proof.
  intros Hk Hc Ht Hs Ho Hcl.
  unfold should_run. cbv zeta. rewrite Hk, Hc, Ht, Hs, Ho, Hcl. reflexivity.
Qed.

Lemma should_run_other_session_no_window_witness :
  should_run (mkArenaConfig [mkCompetitorConfig "a" "openai"] []) empty_storage
    (mkMarketAdapter (fun _ => true) (fun d => Some (d * 86400 + 34200, d * 86400 + 57600)%Z) (fun _ => None))
    (mkMarketConfig "us_equity" []) "open" (20000 * 86400 + 3600)%Z
  = Ok (true, "OK"%string).
Proof.
  rewrite (should_run_other_session_no_window (mkArenaConfig [mkCompetitorConfig "a" "openai"] [])
    empty_storage
    (mkMarketAdapter (fun _ => true) (fun d => Some (d * 86400 + 34200, d * 86400 + 57600)%Z) (fun _ => None))
    (mkMarketConfig "us_equity" []) "open" (20000 * 86400 + 3600)%Z
    (20000 * 86400 + 34200)%Z (20000 * 86400 + 57600)%Z).
  - reflexivity.
  - reflexivity.
  - reflexivity.
  - reflexivity.
  - vm_compute. reflexivity.
  - reflexivity.
  - reflexivity.
Defined.



(* ================================================================== *)
(** * Further properties: agents/base.py *)

Lemma append_cons c (a b : string) : (String c a ++ b)%string = String c (a ++ b).
Proof. reflexivity. Qed.

Lemma append_nil (b : string) : (EmptyString ++ b)%string = b.
Proof. reflexivity. Qed.

Lemma string_length_app (a b : string) :
  String.length (a ++ b) = (String.length a + String.length b)%nat.
Proof.
  induction a as [|c a IH]; rewrite ?append_cons, ?append_nil; cbn [String.length]; [reflexivity|].
  rewrite IH. reflexivity.
Qed.

Lemma list_ascii_of_string_app (a b : string) :
  list_ascii_of_string (a ++ b) = list_ascii_of_string a ++ list_ascii_of_string b.
Proof.
  induction a as [|c a IH]; rewrite ?append_cons, ?append_nil; cbn [list_ascii_of_string app];
    [reflexivity|].
  rewrite IH. reflexivity.
Qed.

Lemma substring_full (s : string) : substring 0 (String.length s) s = s.
Proof. induction s as [|c s IH]; cbn [String.length substring]; [reflexivity|]. rewrite IH. reflexivity. Qed.

Lemma substring_app_skip (a b : string) n m :
  substring (String.length a + n) m (a ++ b) = substring n m b.
Proof.
  induction a as [|c a IH]; rewrite ?append_cons, ?append_nil; cbn [String.length Nat.add substring];
    [reflexivity|exact IH].
Qed.

Lemma substring_app_prefix (a b : string) n :
  substring 0 (String.length a + n) (a ++ b) = (a ++ substring 0 n b)%string.
Proof.
  induction a as [|c a IH]; rewrite ?append_cons, ?append_nil; cbn [String.length Nat.add substring];
    [reflexivity|].
  rewrite IH. reflexivity.
Qed.

Lemma prefix_app (a b : string) : String.prefix a (a ++ b) = true.
Proof.
  induction a as [|c a IH]; rewrite ?append_cons, ?append_nil; cbn [String.prefix].
  - destruct b; reflexivity.
  - destruct (ascii_dec c c) as [_|E]; [exact IH|congruence].
Qed.

Lemma index_newline_cons c z :
  c <> ascii_of_nat 10 ->
  String.index 0 (String (ascii_of_nat 10) EmptyString) (String c z)
  = match String.index 0 (String (ascii_of_nat 10) EmptyString) z with
    | Some n => Some (S n)
    | None => None
    end.
Proof.
  intros Hc. cbn [String.index String.prefix].
  destruct (ascii_dec (ascii_of_nat 10) c) as [E|_]; [congruence|reflexivity].
Qed.

Lemma index_newline_after (tag rest : string) :
  (forall c, In c (list_ascii_of_string tag) -> c <> ascii_of_nat 10) ->
  String.index 0 (String (ascii_of_nat 10) EmptyString) (tag ++ String (ascii_of_nat 10) rest)
  = Some (String.length tag).
Proof.
  induction tag as [|c tag IH]; intros Hnl.
  - rewrite append_nil. cbn [String.index String.prefix String.length].
    destruct (ascii_dec _ _) as [_|E]; [|congruence]. destruct rest; reflexivity.
  - rewrite append_cons. rewrite index_newline_cons by (apply Hnl; left; reflexivity).
    rewrite IH by (intros c' Hin; apply Hnl; right; exact Hin). reflexivity.
Qed.

Lemma strip_nonspace_ends (x : string) c1 c2 m :
  list_ascii_of_string x = c1 :: m ++ [c2] ->
  is_py_space c1 = false -> is_py_space c2 = false -> strip x = x.
Proof.
  intros Hx H1 H2. unfold strip. rewrite Hx. cbn [drop_spaces]. rewrite H1.
  change (c1 :: m ++ [c2]) with ((c1 :: m) ++ [c2]).
  rewrite (rev_app_distr (c1 :: m) [c2]). cbn [rev app drop_spaces]. rewrite H2.
  change (c2 :: rev m ++ [c1]) with (rev [c2] ++ rev (c1 :: m)).
  rewrite <- (rev_app_distr (c1 :: m) [c2]), rev_involutive.
  change ((c1 :: m) ++ [c2]) with (c1 :: m ++ [c2]). rewrite <- Hx. apply string_of_list_ascii_of_string.
Qed.

Lemma drop_spaces_app_space (l : list ascii) c :
  is_py_space c = true ->
  drop_spaces (l ++ [c]) = match drop_spaces l with [] => [] | l' => l' ++ [c] end.
Proof.
  intros Hc. induction l as [|d l IH]; cbn [app drop_spaces]; [rewrite Hc; reflexivity|].
  destruct (is_py_space d); [exact IH|reflexivity].
Qed.

Lemma strip_trailing_newline (s : string) : strip (s ++ String (ascii_of_nat 10) EmptyString) = strip s.
Proof.
  unfold strip. rewrite list_ascii_of_string_app. cbn [list_ascii_of_string].
  rewrite drop_spaces_app_space by reflexivity.
  destruct (drop_spaces (list_ascii_of_string s)) as [|d l] eqn:E; [reflexivity|].
  rewrite rev_app_distr. reflexivity.
Qed.

(** X21: [_clean_json_string] unwraps a Markdown code fence: for a tag
    without newline (such as "json" or none), the content of
    ["```<tag>\n" + s + "\n```"] cleans to [s.strip()], whatever [s]. *)
Theorem clean_json_string_fenced (tag s : string) :
  (forall c, In c (list_ascii_of_string tag) -> c <> ascii_of_nat 10) ->
  clean_json_string (fence ++ tag ++ String (ascii_of_nat 10) (s ++ String (ascii_of_nat 10) fence))
  = strip s.
Proof.
  intros Hnl. unfold clean_json_string.
  assert (Happ : (fence ++ tag ++ String (ascii_of_nat 10) (s ++ String (ascii_of_nat 10) fence))%string
                 = ((fence ++ tag ++ String (ascii_of_nat 10) EmptyString) ++
                    (s ++ String (ascii_of_nat 10) fence))%string).
  { unfold fence. rewrite !append_cons, !append_nil. f_equal. f_equal. f_equal.
    induction tag as [|c tag IH]; rewrite ?append_cons, ?append_nil; [reflexivity|].
    f_equal. apply IH. intros c' Hin. apply Hnl. right. exact Hin. }
  set (content := (fence ++ tag ++ String (ascii_of_nat 10) (s ++ String (ascii_of_nat 10) fence))%string).
  assert (Hstrip : strip content = content).
  { apply (strip_nonspace_ends content "`"%char "`"%char
             (["`"; "`"]%char ++ list_ascii_of_string tag ++ ascii_of_nat 10 ::
              list_ascii_of_string s ++ [ascii_of_nat 10; "`"; "`"]%char)); [|reflexivity|reflexivity].
    unfold content. rewrite !list_ascii_of_string_app. cbn [list_ascii_of_string fence app].
    rewrite list_ascii_of_string_app. cbn [list_ascii_of_string fence app].
    rewrite <- ?app_assoc. cbn [app]. rewrite <- ?app_assoc. reflexivity. }
  rewrite Hstrip.
  assert (Hpre : String.prefix fence content = true) by apply prefix_app.
  rewrite Hpre.
  assert (Hidx : String.index 0 (String (ascii_of_nat 10) EmptyString) content
                 = Some (3 + String.length tag)%nat).
  { unfold content, fence. rewrite !append_cons, !append_nil.
    rewrite !index_newline_cons by (vm_compute; discriminate).
    rewrite index_newline_after by exact Hnl. reflexivity. }
  rewrite Hidx.
  assert (Hsub : substring (S (3 + String.length tag)) (String.length content - S (3 + String.length tag))
                   content
                 = (s ++ String (ascii_of_nat 10) fence)%string).
  { unfold content. rewrite Happ.
    replace (S (3 + String.length tag))
      with (String.length (fence ++ tag ++ String (ascii_of_nat 10) EmptyString) + 0)%nat
      by (rewrite !string_length_app; cbn [String.length fence]; lia).
    rewrite substring_app_skip.
    replace (String.length ((fence ++ tag ++ String (ascii_of_nat 10) EmptyString) ++
               (s ++ String (ascii_of_nat 10) fence))
             - (String.length (fence ++ tag ++ String (ascii_of_nat 10) EmptyString) + 0))%nat
      with (String.length (s ++ String (ascii_of_nat 10) fence))
      by (rewrite (string_length_app (fence ++ _)); lia).
    apply substring_full. }
  rewrite Hsub.
  assert (Hend : endswith fence (s ++ String (ascii_of_nat 10) fence) = true).
  { unfold endswith. rewrite string_length_app. cbn [String.length fence].
    replace (String.length s + 4 - 3)%nat with (String.length s + 1)%nat by lia.
    rewrite substring_app_skip. apply andb_true_intro. split; [apply Nat.leb_le; lia|reflexivity]. }
  rewrite Hend. rewrite string_length_app. cbn [String.length fence].
  replace (String.length s + 4 - 3)%nat with (String.length s + 1)%nat by lia.
  rewrite substring_app_prefix. apply strip_trailing_newline.
Qed.

Lemma clean_json_string_fenced_witness :
  clean_json_string (fence ++ "json" ++ String (ascii_of_nat 10)
                       ("  {}  " ++ String (ascii_of_nat 10) fence))
  = strip "  {}  ".
Proof.
  apply clean_json_string_fenced.
  intros c Hin. cbn in Hin. intuition (subst; discriminate).
Defined.

Lemma parse_session_time_table :
  forallb (fun h => forallb (fun m =>
    match parse_session_time (pad2 (Z.of_nat h) ++ ":" ++ pad2 (Z.of_nat m))%string with
    | Ok (a, b) => (a =? Z.of_nat h)%Z && (b =? Z.of_nat m)%Z
    | Raise _ => false
    end) (seq 0 60)) (seq 0 24) = true.
Proof. vm_compute. reflexivity. Qed.

(** X22: every zero-padded ["HH:MM"] session time with [0 <= HH <= 23] and
    [0 <= MM <= 59] (the form of the [session_times] defaults in
    settings.py) is parsed by [_check_crypto_session] into that hour and
    minute: the [int] conversions and the [time(h, m)] check all succeed. *)
Theorem parse_session_time_hhmm h m :
  (0 <= h <= 23)%Z -> (0 <= m <= 59)%Z ->
  parse_session_time (pad2 h ++ ":" ++ pad2 m)%string = Ok (h, m).
Proof.
  intros Hh Hm.
  pose proof parse_session_time_table as T.
  rewrite forallb_forall in T.
  specialize (T (Z.to_nat h) ltac:(apply in_seq; lia)).
  rewrite forallb_forall in T.
  specialize (T (Z.to_nat m) ltac:(apply in_seq; lia)).
  rewrite !Z2Nat.id in T by lia.
  destruct (parse_session_time _) as [[a b]|e]; [|discriminate].
  apply andb_prop in T as [Ta Tb].
  apply Z.eqb_eq in Ta, Tb. subst. reflexivity.
Qed.

Lemma parse_session_time_hhmm_witness :
  (0 <= 9 <= 23)%Z /\ (0 <= 30 <= 59)%Z /\
  parse_session_time (pad2 9 ++ ":" ++ pad2 30)%string = Ok (9, 30)%Z.
Proof.
  split; [lia|]. split; [lia|].
  apply parse_session_time_hhmm; lia.
Defined.
